(** * zenn-editor: the mermaid embed widget and the markdown [<br>] contract

    A shallow embedding of
    - [packages/zenn-embed-elements/src/classes/mermaid.ts]
      ([initMermaid], [getPotentialPerformanceRisk] and the [EmbedMermaid]
      custom element), and
    - the behaviour that [packages/zenn-markdown-html/__tests__/br.test.ts]
      exercises on [markdownToHtml].

    JavaScript strings that carry user text are sequences of UTF-16 code
    units; markup and messages that the code writes as literals stay Rocq
    strings.  Asynchronous functions are computations that run up to their
    next [await] and hand back a promise; third-party code (the script
    loader, mermaid, the browser's HTML parser) is an interface the
    development is parametric in. *)

From Stdlib Require Import List String Ascii Bool Arith ZArith NArith Lia.
From Stdlib Require Import DecimalString DecimalZ DecimalNat.
Import ListNotations.

Set Implicit Arguments.
#[local] Open Scope string_scope.
#[local] Open Scope list_scope.

(* ================================================================= *)
(** * JavaScript values *)

Module JS.

(** A string is its sequence of UTF-16 code units, so that [length] is
    the [.length] of the source. *)
Definition jsstring := list N.

(** Code units of an ASCII literal. *)
Fixpoint lit (s : string) : jsstring :=
  match s with
  | EmptyString => []
  | String c r => N_of_ascii c :: lit r
  end.

(** The code unit of [&]. *)
Definition ampersand : N := 38.

(** [!s] for a string: only the empty string is falsy. *)
Definition falsy (s : jsstring) : bool :=
  match s with [] => true | _ :: _ => false end.

(** [a || b] on strings. *)
Definition or_else (a b : jsstring) : jsstring :=
  if falsy a then b else a.

(** Number to string, as a template literal interpolates it. *)
Definition string_of_nat (n : nat) : string :=
  NilEmpty.string_of_uint (Nat.to_uint n).

Definition string_of_Z (z : Z) : string :=
  NilEmpty.string_of_int (Z.to_int z).

Inductive Exn :=
| ReferenceError (name : string)
| TypeError (msg : string)
| Failure (msg : string).

Inductive Outcome (A : Type) :=
| Returned (a : A)
| Thrown (e : Exn).
Arguments Returned {A} a.
Arguments Thrown {A} e.

End JS.
Import JS.

(* ================================================================= *)
(** * Asynchronous computations

    An [async] function runs synchronously until its first [await]; the
    rest is a promise that the event loop resumes later, on whatever the
    state is by then. *)

Section Async.

Context {S : Type}.

#[local] Unset Elimination Schemes.
Inductive Promise (A : Type) :=
| Settled (o : Outcome A)
| Pending (k : S -> S * Promise A).
#[local] Set Elimination Schemes.
Arguments Settled {A} o.
Arguments Pending {A} k.

Definition Async (A : Type) := S -> S * Promise A.

Definition ret {A} (a : A) : Async A := fun s => (s, Settled (Returned a)).
Definition throw {A} (e : Exn) : Async A := fun s => (s, Settled (Thrown e)).
Definition get : Async S := fun s => (s, Settled (Returned s)).
Definition modify (f : S -> S) : Async unit :=
  fun s => (f s, Settled (Returned tt)).

(** Sequencing inside a function body. *)
Fixpoint chain {A B} (pr : Promise A) (f : A -> Async B) (s : S)
  : S * Promise B :=
  match pr with
  | Settled (Returned a) => f a s
  | Settled (Thrown e) => (s, Settled (Thrown e))
  | Pending k => (s, Pending (fun q => let (q1, pr1) := k q in chain pr1 f q1))
  end.

Definition bind {A B} (m : Async A) (f : A -> Async B) : Async B :=
  fun s => let (s1, pr) := m s in chain pr f s1.

(** [await m]: [m] is called now, the caller is suspended, and it goes on
    once the promise has settled. *)
Definition await {A} (m : Async A) : Async A :=
  fun s => let (s1, pr) := m s in (s1, Pending (fun q => (q, pr))).

(** [try { m } catch (e) { h e }]. *)
Fixpoint catching {A} (pr : Promise A) (h : Exn -> Async A) (s : S)
  : S * Promise A :=
  match pr with
  | Settled (Returned a) => (s, Settled (Returned a))
  | Settled (Thrown e) => h e s
  | Pending k =>
      (s, Pending (fun q => let (q1, pr1) := k q in catching pr1 h q1))
  end.

Definition try_catch {A} (m : Async A) (h : Exn -> Async A) : Async A :=
  fun s => let (s1, pr) := m s in catching pr h s1.

(** Resuming a promise until it settles, with nothing else running in
    between. *)
Fixpoint settle {A} (pr : Promise A) (s : S) : S * Outcome A :=
  match pr with
  | Settled o => (s, o)
  | Pending k => let (s1, pr1) := k s in settle pr1 s1
  end.

(** A call followed through to its result. *)
Definition run {A} (m : Async A) (s : S) : S * Outcome A :=
  let (s1, pr) := m s in settle pr s1.

(** Promises started and not awaited, picked up by the event loop in the
    order they were started. *)
Fixpoint drain {A} (jobs : list (Promise A)) (s : S) : S :=
  match jobs with
  | [] => s
  | pr :: rest => drain rest (fst (settle pr s))
  end.

(** [proj] is left alone by every step of the promise. *)
Fixpoint keeps {T A} (proj : S -> T) (pr : Promise A) : Prop :=
  match pr with
  | Settled _ => True
  | Pending k => forall q, proj (fst (k q)) = proj q /\ keeps proj (snd (k q))
  end.

Definition stable {T A} (proj : S -> T) (m : Async A) : Prop :=
  forall s, proj (fst (m s)) = proj s /\ keeps proj (snd (m s)).

End Async.

Arguments Promise S A : clear implicits.
Arguments Async S A : clear implicits.

Declare Scope async_scope.
Delimit Scope async_scope with async.
Notation "x <- m ;; k" := (bind m (fun x => k))
  (at level 61, m at next level, right associativity) : async_scope.
Notation "m ;; k" := (bind m (fun _ => k))
  (at level 61, right associativity) : async_scope.
#[local] Open Scope async_scope.

(** Running a computation on a part [T] of the state [S]. *)
Section Zoom.

Context {S T : Type} (view : S -> T) (update : S -> T -> S).

Fixpoint zoom_promise {A} (pr : Promise T A) : Promise S A :=
  match pr with
  | Settled o => Settled o
  | Pending k =>
      Pending (fun q => let (t1, pr1) := k (view q) in
                        (update q t1, zoom_promise pr1))
  end.

Definition zoom {A} (m : Async T A) : Async S A :=
  fun s => let (t1, pr) := m (view s) in (update s t1, zoom_promise pr).

End Zoom.

(** Induction on a promise reaches every promise a resumption can give. *)
Section PromiseInduction.

Context {S A : Type} (P : Promise S A -> Prop).
Hypothesis P_settled : forall o, P (Settled o).
Hypothesis P_pending :
  forall k, (forall q, P (snd (k q))) -> P (Pending k).

Fixpoint Promise_ind (pr : Promise S A) : P pr :=
  match pr with
  | Settled o => P_settled o
  | Pending k => P_pending k (fun q => Promise_ind (snd (k q)))
  end.

End PromiseInduction.

(* ================================================================= *)
(** * The mermaid embed element: data *)

(** mermaid.js のバージョン *)
Definition MERMAID_VERSION : string := "8.13".

(** レンダリングする図ごとの最大文字数 *)
Definition MAX_CHAR_LIMIT : nat := 2000.

(** The limit on [&] chains in one block. *)
Definition MAX_CHAINING_OF_LINKS_LIMIT : nat := 10.

Definition containerId : string := "mermaid-container".

(** The argument of [mermaid.mermaidAPI.initialize]. *)
Record MermaidAPIConfig := {
  startOnLoad : bool;
  securityLevel : string;
  theme : string;
  er_useMaxWidth : bool;
  flowchart_useMaxWidth : bool;
  flowchart_htmlLabels : bool;
  sequence_useMaxWidth : bool;
  class_useMaxWidth : bool;
  journey_useMaxWidth : bool
}.

(** What the code does to the world outside it, in the order it does it. *)
Inductive Event :=
| ELoadScript (src id : string)
| EInitialize (mermaid_startOnLoad : bool)
| EApiInitialize (config : MermaidAPIConfig)
| EParse (text : jsstring)
| ERender (id : string) (text : jsstring)
| EConsoleLog (msg : string) (e : Exn)
| EConsoleError (msg : string)
| EAppendChild (tag : string)
| ESetAttribute (name value : string)
| EInnerHTML (markup : string)
| EChildInnerHTML (markup : string).

(** The global scope: whether [typeof mermaid] is not ['undefined']. *)
Record Globals := { mermaid_defined : bool }.

(** Page values: the globals, the record of effects, the clock that
    [Date.now()] reads, and the next identity the document gives to a node
    it creates. *)
Record Page := {
  globals : Globals;
  trace : list Event;
  now : Z;
  next_node : nat
}.

Definition set_globals (p : Page) (g : Globals) : Page :=
  {| globals := g; trace := trace p; now := now p; next_node := next_node p |}.

Definition set_trace (p : Page) (t : list Event) : Page :=
  {| globals := globals p; trace := t; now := now p; next_node := next_node p |}.

Definition set_now (p : Page) (t : Z) : Page :=
  {| globals := globals p; trace := trace p; now := t; next_node := next_node p |}.

Definition set_next_node (p : Page) (n : nat) : Page :=
  {| globals := globals p; trace := trace p; now := now p; next_node := n |}.

(** [p] with further events on its record. *)
Definition logged (p : Page) (events : list Event) : Page :=
  set_trace p (trace p ++ events).

(** DOM nodes, as far as the element looks at them: elements with their
    [style] attribute and children, and text. *)
#[local] Unset Elimination Schemes.
Inductive Node :=
| Element (tag : string) (style : option string) (children : list Node)
| Text (data : jsstring).
#[local] Set Elimination Schemes.

Fixpoint textContent (n : Node) : jsstring :=
  match n with
  | Element _ _ children => flat_map textContent children
  | Text data => data
  end.

(** A child of the element: a node and the identity of the object. *)
Definition Child : Type := nat * Node.

Record IntersectionObserver := {
  rootMargin : string;
  observing : bool
}.

Record IntersectionObserverEntry := { isIntersecting : bool }.

(** The fields of an [EmbedMermaid] instance; [_tmpContainer] refers to a
    node by its identity. *)
Record EmbedMermaid := {
  childNodes : list Child;
  _tmpContainer : option nat;
  observer : option IntersectionObserver
}.

Definition set_childNodes (l : list Child) (e : EmbedMermaid) : EmbedMermaid :=
  {| childNodes := l; _tmpContainer := _tmpContainer e; observer := observer e |}.

Definition set_tmpContainer (t : option nat) (e : EmbedMermaid) : EmbedMermaid :=
  {| childNodes := childNodes e; _tmpContainer := t; observer := observer e |}.

Definition set_observer (o : option IntersectionObserver) (e : EmbedMermaid)
  : EmbedMermaid :=
  {| childNodes := childNodes e; _tmpContainer := _tmpContainer e; observer := o |}.

(** A method of the element runs on the page and on [this]. *)
Record World := {
  page : Page;
  self : EmbedMermaid
}.

Definition set_page (w : World) (p : Page) : World :=
  {| page := p; self := self w |}.

Definition set_self (w : World) (e : EmbedMermaid) : World :=
  {| page := page w; self := e |}.

Record ErrorContainer := {
  yes : bool;
  message : string
}.

Record PotentialRisk := {
  syntaxError : ErrorContainer;
  charLimitOver : ErrorContainer;
  chainingOfLinksOver : ErrorContainer
}.

(** [Object.values(risk)] *)
Definition Object_values (risk : PotentialRisk) : list ErrorContainer :=
  [syntaxError risk; charLimitOver risk; chainingOfLinksOver risk].

(** [xs.includes(true)] *)
Definition includes_true (xs : list bool) : bool := existsb (Bool.eqb true) xs.

(** Code that is not in this repository's sources: the script loader of
    [../utils/load-script], the mermaid library and the browser.  The
    loader reaches the global scope only; [mermaidAPI.parse] returns or
    throws; [mermaidAPI.render] hands the SVG to its callback or throws;
    [parse_html] is the parser behind [innerHTML]; [innerText] is the
    rendered text of a list of children. *)
Class Host := {
  loadScript : string -> string -> Async Globals unit;
  mermaidAPI_parse : jsstring -> option Exn;
  mermaidAPI_render : string -> jsstring -> Outcome string;
  parse_html : string -> list Node;
  innerText : list Node -> jsstring
}.

(* ================================================================= *)
(** * The mermaid embed element: code *)

Section Mermaid.

Context `{Host}.

Definition on_page {A} : Async Page A -> Async World A := zoom page set_page.
Definition on_globals {A} : Async Globals A -> Async Page A :=
  zoom globals set_globals.

Definition emit (e : Event) : Async Page unit :=
  modify (fun p => logged p [e]).

(** [typeof mermaid === 'undefined'] *)
Definition typeof_mermaid_undefined : Async Page bool :=
  p <- get ;; ret (negb (mermaid_defined (globals p))).

(** Reaching through the global [mermaid] when there is none throws. *)
Definition with_mermaid {A} (m : Async Page A) : Async Page A :=
  undefined <- typeof_mermaid_undefined ;;
  if undefined : bool then throw (ReferenceError "mermaid") else m.

Definition mermaid_src : string :=
  "https://cdn.jsdelivr.net/npm/mermaid@" ++ MERMAID_VERSION
    ++ "/dist/mermaid.min.js".

Definition api_config : MermaidAPIConfig := {|
  startOnLoad := false;
  securityLevel := "strict";
  theme := "default";
  er_useMaxWidth := true;
  flowchart_useMaxWidth := true;
  flowchart_htmlLabels := false;
  sequence_useMaxWidth := true;
  class_useMaxWidth := true;
  journey_useMaxWidth := true
|}.

Definition initMermaid : Async Page unit :=
  undefined <- typeof_mermaid_undefined ;;
  if undefined : bool then
    await (emit (ELoadScript mermaid_src "mermaid-js") ;;
           on_globals (loadScript mermaid_src "mermaid-js")) ;;
    with_mermaid (emit (EInitialize false)) ;;
    with_mermaid (emit (EApiInitialize api_config))
  else ret tt.

(** [source.match(/&/g)]: the matches, [null] when there are none. *)
Definition match_amp (source : jsstring) : option (list jsstring) :=
  match filter (N.eqb ampersand) source with
  | [] => None
  | c :: cs => Some (map (fun u => [u]) (c :: cs))
  end.

(** [m || []] *)
Definition or_empty {A} (m : option (list A)) : list A :=
  match m with Some l => l | None => [] end.

Definition getPotentialPerformanceRisk (source : jsstring)
  : Async Page PotentialRisk :=
  cool <- try_catch
            (with_mermaid
               (emit (EParse source) ;;
                match mermaidAPI_parse source with
                | None => ret tt
                | Some e => throw e
                end) ;;
             ret true)
            (fun e =>
               emit (EConsoleLog
                       "mermaid.js のレンダリングでシンタックスエラーが発生しました" e) ;;
               ret false) ;;
  ret {|
    syntaxError := {|
      yes := negb cool;
      message := "<li>シンタックスエラーです</li>" |};
    charLimitOver := {|
      yes := (MAX_CHAR_LIMIT <? List.length source)%nat;
      message := "<li>ブロックあたりの文字数上限は"
                   ++ string_of_nat MAX_CHAR_LIMIT ++ "です</li>" |};
    chainingOfLinksOver := {|
      yes := (MAX_CHAINING_OF_LINKS_LIMIT
                <? List.length (or_empty (match_amp source)))%nat;
      message := "<li>ブロックあたりの<code>&</code>によるチェイン上限は"
                   ++ string_of_nat MAX_CHAINING_OF_LINKS_LIMIT ++ "です</li>" |}
  |}.

Definition LF : string := String (ascii_of_nat 10) EmptyString.

(** The template literal assigned to [this.innerHTML]. *)
Definition error_markup (risk : PotentialRisk) : string :=
  LF ++ "       <p>"
  ++ LF ++ "        <span>mermaidをレンダリングできません。</span>"
  ++ LF ++ "        <ul>"
  ++ LF ++ "        "
  ++ (if yes (syntaxError risk) then message (syntaxError risk)
      else EmptyString)
  ++ LF ++ "        "
  ++ (if yes (charLimitOver risk) then message (charLimitOver risk)
      else EmptyString)
  ++ LF ++ "        "
  ++ (if yes (chainingOfLinksOver risk) then message (chainingOfLinksOver risk)
      else EmptyString)
  ++ LF ++ "        </ul>"
  ++ LF ++ "       </p>"
  ++ LF ++ "      ".

(** [`${containerId}-${Date.now().valueOf()}-render`] *)
Definition render_id (t : Z) : string :=
  containerId ++ "-" ++ string_of_Z t ++ "-render".

Definition update_self (f : EmbedMermaid -> EmbedMermaid) : Async World unit :=
  modify (fun w => set_self w (f (self w))).

(** [this.textContent || this.innerText] *)
Definition content_of (e : EmbedMermaid) : jsstring :=
  or_else (flat_map textContent (map snd (childNodes e)))
          (innerText (map snd (childNodes e))).

(** [document.createElement(tag)]: a new object. *)
Definition createElement (tag : string) : Async Page Child :=
  p <- get ;;
  modify (fun p => set_next_node p (S (next_node p))) ;;
  ret (next_node p, Element tag None []).

(** The nodes the parser makes are new objects too. *)
Definition adopt (nodes : list Node) : Async Page (list Child) :=
  p <- get ;;
  modify (fun p => set_next_node p (next_node p + List.length nodes)) ;;
  ret (combine (seq (next_node p) (List.length nodes)) nodes).

Definition tag_of (n : Node) : string :=
  match n with
  | Element tag _ _ => tag
  | Text _ => "#text"
  end.

(** [this.appendChild(child)] *)
Definition appendChild (child : Child) : Async World unit :=
  on_page (emit (EAppendChild (tag_of (snd child)))) ;;
  update_self (fun e => set_childNodes (childNodes e ++ [child]) e).

(** [(this.childNodes[0] as HTMLPreElement).setAttribute('style', v)]:
    a missing child or a text node has no such method. *)
Definition hide_sourceContainer : Async World unit :=
  w <- get ;;
  match childNodes (self w) with
  | (i, Element tag _ children) :: rest =>
      on_page (emit (ESetAttribute "style" "display:none")) ;;
      update_self
        (set_childNodes ((i, Element tag (Some "display:none") children) :: rest))
  | (_, Text _) :: _ =>
      throw (TypeError "sourceContainer.setAttribute is not a function")
  | [] => throw (TypeError "sourceContainer is undefined")
  end.

(** [this.innerHTML = markup] *)
Definition set_innerHTML (markup : string) : Async World unit :=
  on_page (emit (EInnerHTML markup)) ;;
  nodes <- on_page (adopt (parse_html markup)) ;;
  update_self (set_childNodes nodes).

Definition with_children (cs : list Node) (n : Node) : Node :=
  match n with
  | Element tag style _ => Element tag style cs
  | Text data => Text data
  end.

(** [container.innerHTML = markup] as it acts on one child: only the object
    that [container] refers to changes. *)
Definition filled (container : nat) (markup : string) (c : Child) : Child :=
  if (fst c =? container)%nat
  then (fst c, with_children (parse_html markup) (snd c))
  else c.

Definition set_child_innerHTML (container : nat) (markup : string)
  : Async World unit :=
  on_page (emit (EChildInnerHTML markup)) ;;
  update_self (fun e =>
    set_childNodes (map (filled container markup) (childNodes e)) e).

(** The callback handed to [mermaidAPI.render]. *)
Definition insert (svgCode : string) : Async World unit :=
  container <- on_page (createElement "div") ;;
  appendChild container ;;
  set_child_innerHTML (fst container) svgCode.

(** The body of [render] below [await initMermaid()]. *)
Definition render_body : Async World unit :=
  w <- get ;;
  let content := content_of (self w) in
  if falsy content then ret tt
  else
    hide_sourceContainer ;;
    risk <- on_page (getPotentialPerformanceRisk content) ;;
    if includes_true (map yes (Object_values risk)) then
      set_innerHTML (error_markup risk)
    else
      (* [mermaid?.mermaidAPI.render(...)] *)
      w <- get ;;
      if mermaid_defined (globals (page w)) then
        let id := render_id (now (page w)) in
        on_page (emit (ERender id content)) ;;
        match mermaidAPI_render id content with
        | Returned svgCode => insert svgCode
        | Thrown e => throw e
        end
      else ret tt.

Definition render : Async World unit :=
  await (on_page initMermaid) ;;
  render_body.

(** [observer.observe(container)] and [observer.unobserve(container)]: the
    container is the only target the observer ever has, so what matters is
    whether it is one. *)
Definition set_observing (b : bool) (e : EmbedMermaid) : EmbedMermaid :=
  set_observer
    (match observer e with
     | Some o => Some {| rootMargin := rootMargin o; observing := b |}
     | None => None
     end)
    e.

(** The function given to [new IntersectionObserver], one entry at a time:
    the state after the synchronous part, and the [render] promise it has
    started and not awaited. *)
Definition on_entry (entry : IntersectionObserverEntry) (w : World)
  : World * list (Promise World unit) :=
  if isIntersecting entry then
    let (w1, started) := render w in
    match _tmpContainer (self w1) with
    | None =>
        (set_page w1
           (logged (page w1) [EConsoleError "Something wrong with _tmpContainer"]),
         [started])
    | Some _ => (set_self w1 (set_observing false (self w1)), [started])
    end
  else (w, []).

(** [entries.forEach(...)] *)
Fixpoint intersection_callback (entries : list IntersectionObserverEntry)
  (w : World) : World * list (Promise World unit) :=
  match entries with
  | [] => (w, [])
  | entry :: rest =>
      let (w1, started) := on_entry entry w in
      let (w2, more) := intersection_callback rest w1 in
      (w2, started ++ more)
  end.

Definition connectedCallback : Async World unit :=
  tmpContainer <- on_page (createElement "div") ;;
  appendChild tmpContainer ;;
  update_self (set_tmpContainer (Some (fst tmpContainer))) ;;
  update_self
    (set_observer (Some {| rootMargin := "1000px 0px"; observing := false |})) ;;
  w <- get ;;
  match _tmpContainer (self w) with
  | Some _ => update_self (set_observing true)
  | None => ret tt
  end.

Definition disconnectedCallback : Async World unit :=
  w <- get ;;
  match observer (self w) with
  | Some _ =>
      match _tmpContainer (self w) with
      | Some _ => update_self (set_observing false)
      | None => ret tt
      end ;;
      (* [this.observer.disconnect()] *)
      update_self (set_observing false)
  | None => ret tt
  end.

(** Whether the container is a target of the observer. *)
Definition is_observing (w : World) : bool :=
  match observer (self w) with
  | Some o => observing o
  | None => false
  end.

(** The browser's side of the observer: it calls back with entries while
    the container is observed, and the promises the callback started run
    once the callback is over. *)
Definition notify (entries : list IntersectionObserverEntry) (w : World)
  : World * nat :=
  if is_observing w then
    let (w1, started) := intersection_callback entries w in
    (drain started w1, List.length started)
  else (w, 0).

(** A sequence of callbacks, and how many times they called [render]. *)
Fixpoint notifications (batches : list (list IntersectionObserverEntry))
  (w : World) : World * nat :=
  match batches with
  | [] => (w, 0)
  | entries :: rest =>
      let (w1, n) := notify entries w in
      let (w2, m) := notifications rest w1 in
      (w2, n + m)
  end.

End Mermaid.

(* ================================================================= *)
(** * The markdown converter

    Modelled from the spec: the converter itself
    ([packages/zenn-markdown-html/src/index.ts]) and the library it wraps
    are not among the sources; only [__tests__/br.test.ts] is.  What follows
    is the converter the spec describes, no more: paragraphs with line
    breaks, tables, fenced code blocks and code spans, raw tags of an allow
    list copied outside code and everything inside code escaped. *)

Module Markdown.

Definition LF : ascii := ascii_of_nat 10.
Definition quote : ascii := ascii_of_nat 34.

(** [s.includes(t)], also what [toMatch] asks of a pattern without
    metacharacters. *)
Definition contains (hay needle : string) : bool :=
  match index 0 needle hay with
  | Some _ => true
  | None => false
  end.

Fixpoint split_on (sep : ascii) (s : string) : list string :=
  match s with
  | EmptyString => [EmptyString]
  | String c r =>
      if Ascii.eqb c sep then EmptyString :: split_on sep r
      else match split_on sep r with
           | [] => [String c EmptyString]
           | first :: others => String c first :: others
           end
  end.

Fixpoint ltrim (s : string) : string :=
  match s with
  | String " " r => ltrim r
  | _ => s
  end.

Fixpoint rtrim (s : string) : string :=
  match s with
  | EmptyString => EmptyString
  | String c r =>
      match rtrim r with
      | EmptyString => if Ascii.eqb c " " then EmptyString else String c EmptyString
      | r' => String c r'
      end
  end.

Definition trim (s : string) : string := rtrim (ltrim s).

Definition escape_char (c : ascii) : string :=
  if Ascii.eqb c "&" then "&amp;"
  else if Ascii.eqb c "<" then "&lt;"
  else if Ascii.eqb c ">" then "&gt;"
  else if Ascii.eqb c quote then "&quot;"
  else String c EmptyString.

Fixpoint escapeHtml (s : string) : string :=
  match s with
  | EmptyString => EmptyString
  | String c r => escape_char c ++ escapeHtml r
  end.

(** The raw tags let through outside code. *)
Definition allowed_tags : list string := ["<br>"].

(** Text outside code: an allowed tag is copied, each other character is
    escaped.  [skip] counts the characters of a tag still to copy. *)
Fixpoint raw_text (skip : nat) (s : string) : string :=
  match s with
  | EmptyString => EmptyString
  | String c r =>
      match skip with
      | S k => String c (raw_text k r)
      | O =>
          match find (fun t => prefix t s) allowed_tags with
          | Some t => String c (raw_text (String.length t - 1) r)
          | None => escape_char c ++ raw_text 0 r
          end
      end
  end.

(** The pieces between backticks: text and code spans take turns, and a
    backtick that is never closed stays a backtick. *)
Fixpoint spans (in_code : bool) (pieces : list string) : string :=
  match pieces with
  | [] => EmptyString
  | [last] => if in_code then "`" ++ raw_text 0 last else raw_text 0 last
  | piece :: rest =>
      (if in_code then "<code>" ++ escapeHtml piece ++ "</code>"
       else raw_text 0 piece)
      ++ spans (negb in_code) rest
  end.

Definition inline (s : string) : string := spans false (split_on "`" s).

Inductive Block :=
| Paragraph (lines : list string)
| Fence (lines : list string)
| Table (header : list string) (rows : list (list string)).

Inductive Mode :=
| Idle
| InParagraph (seen : list string)
| InFence (seen : list string)
| InTable (header : list string) (seen : list (list string)).

Definition is_blank (l : string) : bool := String.eqb (trim l) EmptyString.
Definition is_fence (l : string) : bool := prefix "```" l.
Definition is_row (l : string) : bool := prefix "|" (trim l).

Fixpoint only_delimiters (l : string) : bool :=
  match l with
  | EmptyString => true
  | String c r =>
      (Ascii.eqb c "|" || Ascii.eqb c "-" || Ascii.eqb c ":" || Ascii.eqb c " ")
      && only_delimiters r
  end.

Definition is_delimiter_row (l : string) : bool :=
  is_row l && only_delimiters l && contains l "-".

(** [| a | b |] gives [a] and [b]. *)
Definition cells (l : string) : list string :=
  match split_on "|" (trim l) with
  | _ :: inner => map trim (removelast inner)
  | [] => []
  end.

Definition open_line (l : string) : Mode :=
  if is_blank l then Idle
  else if is_fence l then InFence []
  else InParagraph [l].

Definition step (mode : Mode) (l : string) : list Block * Mode :=
  match mode with
  | Idle => ([], open_line l)
  | InFence seen =>
      if is_fence l then ([Fence (rev seen)], Idle)
      else ([], InFence (l :: seen))
  | InTable header seen =>
      if is_row l then ([], InTable header (cells l :: seen))
      else ([Table header (rev seen)], open_line l)
  | InParagraph seen =>
      if is_blank l then ([Paragraph (rev seen)], Idle)
      else if is_fence l then ([Paragraph (rev seen)], InFence [])
      else
        match seen with
        | [h] =>
            if is_row h && is_delimiter_row l then ([], InTable (cells h) [])
            else ([], InParagraph (l :: seen))
        | _ => ([], InParagraph (l :: seen))
        end
  end.

Definition flush (mode : Mode) : list Block :=
  match mode with
  | Idle => []
  | InParagraph seen => [Paragraph (rev seen)]
  | InFence seen => [Fence (rev seen)]
  | InTable header seen => [Table header (rev seen)]
  end.

Fixpoint blocks (mode : Mode) (lines : list string) : list Block :=
  match lines with
  | [] => flush mode
  | l :: rest => let (out, mode') := step mode l in out ++ blocks mode' rest
  end.

Definition nl : string := String LF EmptyString.

Definition render_row (cell_tag : string) (row : list string) : string :=
  "<tr>" ++ nl
  ++ String.concat EmptyString (map (fun c => ("<" ++ cell_tag ++ ">" ++ inline c
                       ++ "</" ++ cell_tag ++ ">" ++ nl)%string) row)
  ++ "</tr>" ++ nl.

Definition render_block (b : Block) : string :=
  match b with
  | Paragraph lines =>
      "<p>" ++ String.concat ("<br />" ++ nl) (map inline lines) ++ "</p>" ++ nl
  | Fence lines =>
      "<pre><code>"
      ++ String.concat EmptyString (map (fun l => (escapeHtml l ++ nl)%string) lines)
      ++ "</code></pre>" ++ nl
  | Table header rows =>
      "<table>" ++ nl
      ++ "<thead>" ++ nl ++ render_row "th" header ++ "</thead>" ++ nl
      ++ "<tbody>" ++ nl
      ++ String.concat EmptyString (map (render_row "td") rows)
      ++ "</tbody>" ++ nl
      ++ "</table>" ++ nl
  end.

(** Modelled from the spec: [markdownToHtml] of
    [packages/zenn-markdown-html/src/index.ts], which is not among the
    sources (only its test is).  The spec has it a pure function from
    markdown text to an HTML string, with tables and line breaks, that
    passes raw inline tags such as [<br>] through in prose and in table
    cells and entity-escapes the content of code spans and fenced code
    blocks. *)
Definition markdownToHtml (src : string) : string :=
  String.concat EmptyString
    (map render_block (blocks Idle (split_on LF src))).

(** The inputs of [br.test.ts]. *)
Definition tableString : string :=
  String.concat nl ["| a | b |"; "| --- | --- |"; "| foo<br>bar | c |"].

Definition fencedString : string := "```" ++ nl ++ "<br>" ++ nl ++ "```".

(** Characters that mean nothing to the inline renderer. *)
Definition plain_char (c : ascii) : bool :=
  negb (Ascii.eqb c "&" || Ascii.eqb c "<" || Ascii.eqb c ">"
        || Ascii.eqb c quote || Ascii.eqb c "`").

Fixpoint plain (s : string) : bool :=
  match s with
  | EmptyString => true
  | String c r => plain_char c && plain r
  end.

Fixpoint no_backtick (s : string) : bool :=
  match s with
  | EmptyString => true
  | String c r => negb (Ascii.eqb c "`") && no_backtick r
  end.

End Markdown.


(* ================================================================= *)
(** * A host and some pages to run the code on *)

Module Sample.

(** A loader that defines [mermaid] when the script has arrived, a parser
    that rejects any text with a question mark in it, a renderer that
    always answers. *)
Definition host : Host := {|
  loadScript := fun _ _ =>
    await (ret tt) ;; modify (fun _ => {| mermaid_defined := true |});
  mermaidAPI_parse := fun text =>
    if existsb (N.eqb 63) text then Some (Failure "Parse error") else None;
  mermaidAPI_render := fun _ _ => Returned "<svg></svg>";
  parse_html := fun markup => [Text (lit markup)];
  innerText := fun nodes => flat_map textContent nodes
|}.

(** A page on which the library has not been loaded yet. *)
Definition fresh_page : Page := {|
  globals := {| mermaid_defined := false |};
  trace := [];
  now := 1636000000000;
  next_node := 2
|}.

(** The same page once the library is there. *)
Definition loaded_page : Page := {|
  globals := {| mermaid_defined := true |};
  trace := [];
  now := 1636000000000;
  next_node := 2
|}.

(** [<embed-mermaid><pre>text</pre></embed-mermaid>], the [pre] being the
    object [i]. *)
Definition widget (i : nat) (text : jsstring) : EmbedMermaid := {|
  childNodes := [(i, Element "pre" None [Text text])];
  _tmpContainer := None;
  observer := None
|}.

Definition flowchart : jsstring := lit "graph TD; A-->B".
Definition broken : jsstring := lit "graph TD; A-->?".
Definition long_source : jsstring := repeat 97%N 2001.
Definition chained : jsstring :=
  lit "graph LR; a & b & c & d & e & f & g & h & i & j & k & l --> z".

Definition visible : IntersectionObserverEntry := {| isIntersecting := true |}.
Definition hidden : IntersectionObserverEntry := {| isIntersecting := false |}.

(** Two diagrams on one page, rendered one after the other within one
    reading of the clock. *)
Definition one : World :=
  {| page := loaded_page; self := widget 0 flowchart |}.

Definition two : World :=
  {| page := page (fst (run (@render host) one)); self := widget 1 flowchart |}.

(** The second diagram again, the clock having moved on by then. *)
Definition two_later : World :=
  {| page := set_now (page two) (now (page two) + 1); self := self two |}.

(** A widget with nothing to draw, on a page without the library. *)
Definition empty : World :=
  {| page := fresh_page; self := widget 0 [] |}.

(** A widget once it is attached. *)
Definition attached : World :=
  fst (run connectedCallback one).

(** A widget whose source is too long, attached, on a page with the
    library. *)
Definition oversized : World :=
  fst (run connectedCallback
         {| page := loaded_page; self := widget 0 long_source |}).

End Sample.

(* ================================================================= *)
(** * Words for the statements *)

Section Descriptions.

Context `{Host}.

Definition syntax_message : string :=
  "mermaid.js のレンダリングでシンタックスエラーが発生しました".

(** What [mermaid!.mermaidAPI.parse(source)] does on a page: the exception
    it throws, if any. *)
Definition parse_call (p : Page) (source : jsstring) : option Exn :=
  if mermaid_defined (globals p) then mermaidAPI_parse source
  else Some (ReferenceError "mermaid").

(** What the [try] block of [getPotentialPerformanceRisk] leaves on the
    record. *)
Definition parse_events (p : Page) (source : jsstring) : list Event :=
  if mermaid_defined (globals p) then
    match mermaidAPI_parse source with
    | None => [EParse source]
    | Some e => [EParse source; EConsoleLog syntax_message e]
    end
  else [EConsoleLog syntax_message (ReferenceError "mermaid")].

(** The first child once [display:none] is on it. *)
Definition concealed (i : nat) (tag : string) (cs : list Node) : Child :=
  (i, Element tag (Some "display:none") cs).

Definition is_render (e : Event) : bool :=
  match e with ERender _ _ => true | _ => false end.

Definition is_innerHTML (e : Event) : bool :=
  match e with EInnerHTML _ => true | _ => false end.

Definition is_init (e : Event) : bool :=
  match e with
  | ELoadScript _ _ | EInitialize _ | EApiInitialize _ => true
  | _ => false
  end.

(** The identifiers handed to [mermaidAPI.render], in order. *)
Fixpoint render_ids (events : list Event) : list string :=
  match events with
  | [] => []
  | ERender id _ :: rest => id :: render_ids rest
  | _ :: rest => render_ids rest
  end.

(** The identities of the children. *)
Definition identities (e : EmbedMermaid) : list nat := map fst (childNodes e).

(** Every object the element holds was made before the next one the
    document will make. *)
Definition well_formed (w : World) : Prop :=
  (forall i, In i (identities (self w)) -> i < next_node (page w))
  /\ (forall t, _tmpContainer (self w) = Some t -> t < next_node (page w)).

(** The fields of the element that belong to the observer. *)
Definition observation (w : World) : option nat * option IntersectionObserver :=
  (_tmpContainer (self w), observer (self w)).

(** The first callback that carries an intersecting entry. *)
Fixpoint first_visible (batches : list (list IntersectionObserverEntry))
  : list IntersectionObserverEntry :=
  match batches with
  | [] => []
  | entries :: rest =>
      if existsb isIntersecting entries then entries else first_visible rest
  end.


(** How many entries of a callback are intersecting. *)
Definition intersecting (entries : list IntersectionObserverEntry) : nat :=
  List.length (filter isIntersecting entries).

End Descriptions.

(* ================================================================= *)
(** * Hosts that fail, and a widget without a source element *)

Module Hosts.

(** The script does not arrive: the loader's promise is rejected. *)
Definition offline : Host := {|
  loadScript := fun _ _ => await (ret tt) ;; throw (Failure "load error");
  mermaidAPI_parse := @mermaidAPI_parse Sample.host;
  mermaidAPI_render := @mermaidAPI_render Sample.host;
  parse_html := @parse_html Sample.host;
  innerText := @innerText Sample.host
|}.

(** The script arrives and defines nothing. *)
Definition stale : Host := {|
  loadScript := fun _ _ => await (ret tt);
  mermaidAPI_parse := @mermaidAPI_parse Sample.host;
  mermaidAPI_render := @mermaidAPI_render Sample.host;
  parse_html := @parse_html Sample.host;
  innerText := @innerText Sample.host
|}.

(** [mermaidAPI.render] throws on what [mermaidAPI.parse] accepted. *)
Definition brittle : Host := {|
  loadScript := @loadScript Sample.host;
  mermaidAPI_parse := @mermaidAPI_parse Sample.host;
  mermaidAPI_render := fun _ _ => Thrown (Failure "render error");
  parse_html := @parse_html Sample.host;
  innerText := @innerText Sample.host
|}.

(** [<embed-mermaid>text</embed-mermaid>]: the text is the first child. *)
Definition bare (text : jsstring) : EmbedMermaid := {|
  childNodes := [(0, Text text)];
  _tmpContainer := None;
  observer := None
|}.

(** A diagram of exactly [MAX_CHAR_LIMIT] code units. *)
Definition full_source : jsstring := repeat 97%N 2000.

End Hosts.

Section MoreDescriptions.

Context `{Host}.

(** The text of the children, as [textContent] of the widget reads it. *)
Definition text_of (e : EmbedMermaid) : jsstring :=
  flat_map textContent (map snd (childNodes e)).

(** [hay.includes(needle)] *)
Definition includes (hay needle : string) : bool :=
  match index 0 needle hay with
  | Some _ => true
  | None => false
  end.

Definition is_parse (e : Event) : bool :=
  match e with EParse _ => true | _ => false end.

Definition is_dom_write (e : Event) : bool :=
  match e with
  | EAppendChild _ | ESetAttribute _ _ | EInnerHTML _ | EChildInnerHTML _ => true
  | _ => false
  end.

(** No entry of any of the callbacks is intersecting. *)
Definition all_hidden (batches : list (list IntersectionObserverEntry)) : bool :=
  forallb (fun entries => negb (existsb isIntersecting entries)) batches.

End MoreDescriptions.

(* ================================================================= *)
(** * Facts about asynchronous computations *)

Unset Implicit Arguments.

Section AsyncFacts.

Context {S : Type}.

Lemma settle_chain {A B} (pr : Promise S A) (f : A -> Async S B) :
  forall s,
    (let (s1, pr1) := chain pr f s in settle pr1 s1)
    = (let (s1, o) := settle pr s in
       match o with
       | Returned a => run (f a) s1
       | Thrown e => (s1, Thrown e)
       end).
Proof.
  induction pr as [[a|e]|k IH] using Promise_ind; intros s; simpl.
  - reflexivity.
  - reflexivity.
  - specialize (IH s). destruct (k s) as [q1 pr1]. simpl in IH. exact (IH q1).
Qed.

Lemma run_bind {A B} (m : Async S A) (f : A -> Async S B) (s : S) :
  run (bind m f) s
  = (let (s1, o) := run m s in
     match o with
     | Returned a => run (f a) s1
     | Thrown e => (s1, Thrown e)
     end).
Proof.
  unfold run, bind. destruct (m s) as [s1 pr]. apply settle_chain.
Qed.

Lemma run_ret {A} (a : A) (s : S) : run (ret a) s = (s, Returned a).
Proof. reflexivity. Qed.

Lemma run_throw {A} (e : Exn) (s : S) : run (@throw S A e) s = (s, Thrown e).
Proof. reflexivity. Qed.

Lemma run_get (s : S) : run get s = (s, Returned s).
Proof. reflexivity. Qed.

Lemma run_modify (f : S -> S) (s : S) : run (modify f) s = (f s, Returned tt).
Proof. reflexivity. Qed.

Lemma run_await {A} (m : Async S A) (s : S) : run (await m) s = run m s.
Proof. unfold run, await. destruct (m s) as [s1 pr]. reflexivity. Qed.

Lemma settle_catching {A} (pr : Promise S A) (h : Exn -> Async S A) :
  forall s,
    (let (s1, pr1) := catching pr h s in settle pr1 s1)
    = (let (s1, o) := settle pr s in
       match o with
       | Returned a => (s1, Returned a)
       | Thrown e => run (h e) s1
       end).
Proof.
  induction pr as [[a|e]|k IH] using Promise_ind; intros s; simpl.
  - reflexivity.
  - reflexivity.
  - specialize (IH s). destruct (k s) as [q1 pr1]. simpl in IH. exact (IH q1).
Qed.

Lemma run_try_catch {A} (m : Async S A) (h : Exn -> Async S A) (s : S) :
  run (try_catch m h) s
  = (let (s1, o) := run m s in
     match o with
     | Returned a => (s1, Returned a)
     | Thrown e => run (h e) s1
     end).
Proof.
  unfold run, try_catch. destruct (m s) as [s1 pr]. apply settle_catching.
Qed.

(** ** What a computation leaves alone *)

Context {T : Type} (proj : S -> T).

Lemma settle_keeps {A} (pr : Promise S A) :
  keeps proj pr -> forall s, proj (fst (settle pr s)) = proj s.
Proof.
  induction pr as [o|k IH] using Promise_ind; simpl; intros Hk s.
  - reflexivity.
  - destruct (Hk s) as [Hs Hrest]. specialize (IH s).
    destruct (k s) as [s1 pr1]. simpl in *.
    rewrite (IH Hrest s1). exact Hs.
Qed.

Lemma drain_keeps {A} (jobs : list (Promise S A)) :
  Forall (keeps proj) jobs -> forall s, proj (drain jobs s) = proj s.
Proof.
  induction 1 as [|pr rest Hpr _ IH]; intros s; simpl.
  - reflexivity.
  - rewrite IH. now apply settle_keeps.
Qed.

Lemma chain_keeps {A B} (pr : Promise S A) (f : A -> Async S B) :
  keeps proj pr -> (forall a, stable proj (f a)) ->
  forall s, proj (fst (chain pr f s)) = proj s
            /\ keeps proj (snd (chain pr f s)).
Proof.
  intros Hpr Hf.
  induction pr as [[a|e]|k IH] using Promise_ind; intros s; simpl.
  - apply Hf.
  - split; [reflexivity | exact I].
  - split; [reflexivity|]. intros q. simpl in Hpr.
    destruct (Hpr q) as [Hq Hrest]. specialize (IH q Hrest).
    destruct (k q) as [q1 pr1]. simpl in *.
    destruct (IH q1) as [H1 H2]. split; [congruence | exact H2].
Qed.

Lemma stable_bind {A B} (m : Async S A) (f : A -> Async S B) :
  stable proj m -> (forall a, stable proj (f a)) -> stable proj (bind m f).
Proof.
  intros Hm Hf s. unfold bind. destruct (Hm s) as [H1 H2].
  destruct (m s) as [s1 pr]. simpl in *.
  destruct (chain_keeps pr f H2 Hf s1) as [H3 H4].
  split; [congruence | exact H4].
Qed.

Lemma stable_ret {A} (a : A) : stable proj (@ret S A a).
Proof. intros s. split; [reflexivity | exact I]. Qed.

Lemma stable_throw {A} (e : Exn) : stable proj (@throw S A e).
Proof. intros s. split; [reflexivity | exact I]. Qed.

Lemma stable_get : stable proj (@get S).
Proof. intros s. split; [reflexivity | exact I]. Qed.

Lemma stable_modify (f : S -> S) :
  (forall s, proj (f s) = proj s) -> stable proj (modify f).
Proof. intros Hf s. split; [apply Hf | exact I]. Qed.

Lemma stable_await {A} (m : Async S A) :
  stable proj m -> stable proj (await m).
Proof.
  intros Hm s. unfold await. destruct (Hm s) as [H1 H2].
  destruct (m s) as [s1 pr]. simpl in *.
  split; [exact H1|]. intros q. simpl. split; [reflexivity | exact H2].
Qed.

End AsyncFacts.

Section ZoomFacts.

Context {S T : Type} (view : S -> T) (update : S -> T -> S).
Hypothesis view_update : forall s t, view (update s t) = t.
Hypothesis update_update : forall s t t', update (update s t) t' = update s t'.

Lemma settle_zoom {A} (pr : Promise T A) :
  forall s t,
    settle (zoom_promise view update pr) (update s t)
    = (let (t1, o) := settle pr t in (update s t1, o)).
Proof.
  induction pr as [o|k IH] using Promise_ind; intros s t; simpl.
  - reflexivity.
  - rewrite view_update. specialize (IH t).
    destruct (k t) as [t1 pr1]. simpl in IH.
    rewrite update_update. apply IH.
Qed.

Lemma run_zoom {A} (m : Async T A) (s : S) :
  run (zoom view update m) s
  = (let (t1, o) := run m (view s) in (update s t1, o)).
Proof.
  unfold run, zoom. destruct (m (view s)) as [t1 pr]. apply settle_zoom.
Qed.

(** A zoomed computation leaves alone whatever [update] does. *)
Lemma stable_zoom {U A} (proj : S -> U) (m : Async T A) :
  (forall s t, proj (update s t) = proj s) -> stable proj (zoom view update m).
Proof.
  intros Hproj.
  assert (Hk : forall pr : Promise T A, keeps proj (zoom_promise view update pr)).
  { induction pr as [o|k IH] using Promise_ind; simpl; [exact I|].
    intros q. specialize (IH (view q)).
    destruct (k (view q)) as [t1 pr1]. simpl in *.
    split; [apply Hproj | exact IH]. }
  intros s. unfold zoom. destruct (m (view s)) as [t1 pr]. simpl.
  split; [apply Hproj | apply Hk].
Qed.

End ZoomFacts.

(* ================================================================= *)
(** * Facts about the mermaid embed element *)

Lemma map_snd_combine {A B} (l : list A) (l' : list B) :
  List.length l = List.length l' -> map snd (combine l l') = l'.
Proof.
  revert l'. induction l as [|a l IH]; intros [|b l'] Hlen;
    try discriminate; cbn; [reflexivity|].
  f_equal. apply IH. now injection Hlen.
Qed.

Lemma map_fst_combine {A B} (l : list A) (l' : list B) :
  List.length l = List.length l' -> map fst (combine l l') = l.
Proof.
  revert l'. induction l as [|a l IH]; intros [|b l'] Hlen;
    try discriminate; cbn; [reflexivity|].
  f_equal. apply IH. now injection Hlen.
Qed.

Section MermaidFacts.

Context `{Host}.

Lemma run_on_page {A} (m : Async Page A) (w : World) :
  run (on_page m) w = (let (p1, o) := run m (page w) in (set_page w p1, o)).
Proof. apply run_zoom; reflexivity. Qed.

Lemma run_on_globals {A} (m : Async Globals A) (p : Page) :
  run (on_globals m) p
  = (let (g1, o) := run m (globals p) in (set_globals p g1, o)).
Proof. apply run_zoom; reflexivity. Qed.

Lemma run_emit (e : Event) (p : Page) :
  run (emit e) p = (logged p [e], Returned tt).
Proof. reflexivity. Qed.

Lemma run_with_mermaid {A} (m : Async Page A) (p : Page) :
  run (with_mermaid m) p
  = if mermaid_defined (globals p) then run m p
    else (p, Thrown (ReferenceError "mermaid")).
Proof.
  unfold with_mermaid, typeof_mermaid_undefined.
  rewrite !run_bind, run_get, run_ret.
  destruct (mermaid_defined (globals p)); reflexivity.
Qed.

Lemma logged_logged (p : Page) (a b : list Event) :
  logged (logged p a) b = logged p (a ++ b).
Proof. unfold logged, set_trace. cbn. now rewrite app_assoc. Qed.

Lemma logged_globals (p : Page) (g : Globals) (a : list Event) :
  logged (set_globals p g) a = set_globals (logged p a) g.
Proof. reflexivity. Qed.

(** ** [initMermaid] *)

Lemma run_initMermaid (p : Page) :
  run initMermaid p
  = if mermaid_defined (globals p) then (p, Returned tt)
    else
      let p0 := logged p [ELoadScript mermaid_src "mermaid-js"] in
      let (g1, o) := run (loadScript mermaid_src "mermaid-js") (globals p) in
      match o with
      | Thrown e => (set_globals p0 g1, Thrown e)
      | Returned _ =>
          if mermaid_defined g1
          then (set_globals
                  (logged p [ELoadScript mermaid_src "mermaid-js";
                             EInitialize false;
                             EApiInitialize api_config]) g1,
                Returned tt)
          else (set_globals p0 g1, Thrown (ReferenceError "mermaid"))
      end.
Proof.
  unfold initMermaid, typeof_mermaid_undefined.
  rewrite !run_bind, run_get, run_ret.
  destruct (mermaid_defined (globals p)) eqn:Hdef; simpl negb; cbv iota.
  - reflexivity.
  - rewrite run_bind, run_await, run_bind, run_emit, run_on_globals.
    cbn [globals logged set_trace].
    destruct (run (loadScript mermaid_src "mermaid-js") (globals p))
      as [g1 [[]|e]]; [|reflexivity].
    rewrite run_bind, !run_with_mermaid. cbn [globals set_globals].
    destruct (mermaid_defined g1) eqn:Hg1; [|reflexivity].
    rewrite run_emit, <- logged_globals, logged_logged, run_with_mermaid.
    cbn [globals set_globals logged set_trace].
    rewrite Hg1, run_emit, <- logged_globals, logged_logged.
    reflexivity.
Qed.

(** ** [getPotentialPerformanceRisk] *)

Lemma run_getPotentialPerformanceRisk (source : jsstring) (p : Page) :
  exists risk,
    run (getPotentialPerformanceRisk source) p
    = (logged p (parse_events p source), Returned risk)
    /\ yes (syntaxError risk)
       = (match parse_call p source with Some _ => true | None => false end)
    /\ yes (charLimitOver risk) = (MAX_CHAR_LIMIT <? List.length source)%nat
    /\ yes (chainingOfLinksOver risk)
       = (MAX_CHAINING_OF_LINKS_LIMIT
            <? List.length (or_empty (match_amp source)))%nat.
Proof.
  unfold getPotentialPerformanceRisk, parse_call, parse_events.
  rewrite run_bind, run_try_catch, run_bind, run_with_mermaid.
  destruct (mermaid_defined (globals p)) eqn:Hdef.
  - rewrite run_bind, run_emit.
    destruct (mermaidAPI_parse source) as [e|].
    + rewrite run_throw, run_bind, run_emit, run_ret, run_ret, logged_logged.
      eexists; repeat split.
    + rewrite !run_ret. eexists; repeat split.
  - rewrite run_bind, run_emit, !run_ret.
    eexists; repeat split.
Qed.


(** ** [render] *)

Lemma run_render (w : World) :
  run render w
  = (let (p1, o) := run initMermaid (page w) in
     match o with
     | Returned _ => run render_body (set_page w p1)
     | Thrown e => (set_page w p1, Thrown e)
     end).
Proof.
  unfold render. rewrite run_bind, run_await, run_on_page.
  destruct (run initMermaid (page w)) as [p1 [[]|e]]; reflexivity.
Qed.

Lemma run_render_body_empty (w : World) :
  falsy (content_of (self w)) = true -> run render_body w = (w, Returned tt).
Proof.
  intros Hempty. unfold render_body. rewrite run_bind, run_get, Hempty.
  reflexivity.
Qed.

Lemma run_render_body_untyped (w : World) :
  falsy (content_of (self w)) = false ->
  match childNodes (self w) with
  | (_, Element _ _ _) :: _ => True
  | _ => exists e, run render_body w = (w, Thrown e)
  end.
Proof.
  intros Hfull.
  destruct (childNodes (self w)) as [|[i [tag st cs|data]] rest] eqn:Hkids;
    [|exact I|];
    eexists; unfold render_body; rewrite run_bind, run_get, Hfull;
    rewrite run_bind; unfold hide_sourceContainer at 1;
    rewrite run_bind, run_get, Hkids; reflexivity.
Qed.

Lemma parse_events_quiet (p : Page) (source : jsstring) :
  filter is_render (parse_events p source) = []
  /\ filter is_innerHTML (parse_events p source) = [].
Proof.
  unfold parse_events.
  destruct (mermaid_defined (globals p)); [|now split].
  destruct (mermaidAPI_parse source); now split.
Qed.

Lemma init_events_quiet (events : list Event) :
  forallb is_init events = true ->
  filter is_render events = [] /\ filter is_innerHTML events = [].
Proof.
  induction events as [|e events IH]; cbn [forallb filter]; [now split|].
  intros Hall. apply andb_prop in Hall as [He Hrest].
  destruct e; try discriminate; cbn [is_render is_innerHTML]; now apply IH.
Qed.

Lemma parse_events_logged (p : Page) (events : list Event) (source : jsstring) :
  parse_events (logged p events) source = parse_events p source.
Proof. reflexivity. Qed.

Lemma risk_free_defined (p : Page) (source : jsstring) (risk : PotentialRisk) :
  yes (syntaxError risk)
  = (match parse_call p source with Some _ => true | None => false end) ->
  includes_true (map yes (Object_values risk)) = false ->
  mermaid_defined (globals p) = true /\ parse_events p source = [EParse source].
Proof.
  unfold includes_true, Object_values, parse_call, parse_events. cbn [map existsb].
  intros Hsyn Hnone. apply orb_false_elim in Hnone as [Hs _].
  destruct (yes (syntaxError risk)); [discriminate|].
  destruct (mermaid_defined (globals p)); [|discriminate].
  destruct (mermaidAPI_parse source); [discriminate|]. now split.
Qed.

Lemma run_render_body (w : World) i tag st cs rest :
  childNodes (self w) = (i, Element tag st cs) :: rest ->
  falsy (content_of (self w)) = false ->
  let content := content_of (self w) in
  let p := page w in
  let checks := ESetAttribute "style" "display:none" :: parse_events p content in
  exists risk,
    run (getPotentialPerformanceRisk content)
        (logged p [ESetAttribute "style" "display:none"])
    = (logged p checks, Returned risk)
    /\ yes (syntaxError risk)
       = (match parse_call p content with Some _ => true | None => false end)
    /\ yes (charLimitOver risk) = (MAX_CHAR_LIMIT <? List.length content)%nat
    /\ yes (chainingOfLinksOver risk)
       = (MAX_CHAINING_OF_LINKS_LIMIT
            <? List.length (or_empty (match_amp content)))%nat
    /\ exists w' o,
        run render_body w = (w', o)
        /\ globals (page w') = globals p
        /\ now (page w') = now p
        /\ _tmpContainer (self w') = _tmpContainer (self w)
        /\ observer (self w') = observer (self w)
        /\ if includes_true (map yes (Object_values risk)) then
             let nodes := parse_html (error_markup risk) in
             o = Returned tt
             /\ trace (page w')
                = trace p ++ checks ++ [EInnerHTML (error_markup risk)]
             /\ childNodes (self w')
                = combine (seq (next_node p) (List.length nodes)) nodes
             /\ next_node (page w') = next_node p + List.length nodes
           else
             let id := render_id (now p) in
             match mermaidAPI_render id content with
             | Returned svgCode =>
                 o = Returned tt
                 /\ trace (page w')
                    = trace p ++ checks
                      ++ [ERender id content; EAppendChild "div";
                          EChildInnerHTML svgCode]
                 /\ childNodes (self w')
                    = map (filled (next_node p) svgCode)
                        (concealed i tag cs :: rest
                         ++ [(next_node p, Element "div" None [])])
                 /\ next_node (page w') = S (next_node p)
             | Thrown e =>
                 o = Thrown e
                 /\ trace (page w') = trace p ++ checks ++ [ERender id content]
                 /\ childNodes (self w') = concealed i tag cs :: rest
                 /\ next_node (page w') = next_node p
             end.
Proof.
  intros Hkids Hfull content p checks.
  destruct (run_getPotentialPerformanceRisk content
              (logged p [ESetAttribute "style" "display:none"]))
    as (risk & Hrun & Hsyn & Hchar & Hchain).
  rewrite logged_logged in Hrun. cbn [app] in Hrun.
  rewrite parse_events_logged in Hrun.
  exists risk. split; [exact Hrun|].
  split; [exact Hsyn|]. split; [exact Hchar|]. split; [exact Hchain|].
  unfold render_body. rewrite run_bind, run_get, Hfull.
  rewrite run_bind. unfold hide_sourceContainer at 1.
  rewrite run_bind, run_get, Hkids.
  match goal with |- context [run (on_page (emit ?e) ;; ?k) w] =>
    change (run (on_page (emit e) ;; k) w) with
      (set_self (set_page w (logged (page w) [e]))
         (set_childNodes (concealed i tag cs :: rest) (self w)),
       Returned tt) end.
  cbv iota beta.
  rewrite run_bind, run_on_page.
  cbn [page set_self set_page]. fold p content.
  rewrite Hrun. cbv iota beta.
  destruct (includes_true (map yes (Object_values risk))) eqn:Hrisk.
  - eexists; eexists. split; [reflexivity|].
    cbn [page self set_self set_page globals now trace next_node
         _tmpContainer observer childNodes set_childNodes set_next_node
         logged set_trace fst snd].
    rewrite <- !app_assoc. repeat split.
  - destruct (risk_free_defined _ _ _ Hsyn Hrisk) as [Hdef Hparse].
    rewrite run_bind, run_get.
    cbn [page self set_self set_page globals logged set_trace].
    fold p. cbn [globals logged set_trace] in Hdef. rewrite Hdef.
    rewrite run_bind.
    cbn [page self set_self set_page now logged set_trace].
    destruct (mermaidAPI_render (render_id (now p)) content) as [svgCode|e].
    + eexists; eexists. split; [reflexivity|].
      cbn [page self set_self set_page globals now trace next_node
           _tmpContainer observer childNodes set_childNodes set_next_node
           logged set_trace fst snd].
      rewrite <- !app_assoc. repeat split.
    + eexists; eexists. split; [reflexivity|].
      cbn [page self set_self set_page globals now trace next_node
           _tmpContainer observer childNodes set_childNodes set_next_node
           logged set_trace fst snd].
      rewrite <- !app_assoc. repeat split.
Qed.

(** ** Counting [&] *)

Lemma match_amp_length (source : jsstring) :
  List.length (or_empty (match_amp source)) = count_occ N.eq_dec source ampersand.
Proof.
  unfold match_amp.
  assert (Hcount : List.length (filter (N.eqb ampersand) source)
                   = count_occ N.eq_dec source ampersand).
  { induction source as [|c cs IH]; [reflexivity|]. cbn [filter count_occ].
    destruct (N.eqb_spec ampersand c) as [Heq|Hne],
      (N.eq_dec c ampersand) as [Heq'|Hne'];
      try congruence; cbn [List.length]; now rewrite IH. }
  rewrite <- Hcount.
  destruct (filter (N.eqb ampersand) source); simpl; [reflexivity|].
  now rewrite length_map.
Qed.

(** ** Identifiers *)

Lemma string_of_Z_inj (a b : Z) : string_of_Z a = string_of_Z b -> a = b.
Proof.
  unfold string_of_Z. intros Heq.
  assert (Hint : Z.to_int a = Z.to_int b).
  { pose proof (NilEmpty.isi (Z.to_int a)) as Ha.
    pose proof (NilEmpty.isi (Z.to_int b)) as Hb.
    rewrite Heq in Ha. congruence. }
  now apply DecimalZ.to_int_inj.
Qed.

Lemma append_inj_l (s a b : string) : (s ++ a = s ++ b)%string -> a = b.
Proof. induction s as [|c s IH]; simpl; intros Heq; [exact Heq|]. injection Heq. exact IH. Qed.

Lemma append_length (a b : string) :
  String.length (a ++ b) = String.length a + String.length b.
Proof. induction a as [|c a IH]; simpl; [reflexivity | now rewrite IH]. Qed.

Lemma append_inj_r (a b s : string) : (a ++ s = b ++ s)%string -> a = b.
Proof.
  revert b. induction a as [|c a IH]; intros [|d b] Heq; simpl in Heq.
  - reflexivity.
  - apply (f_equal String.length) in Heq. simpl in Heq.
    rewrite append_length in Heq. lia.
  - apply (f_equal String.length) in Heq. simpl in Heq.
    rewrite append_length in Heq. lia.
  - injection Heq as -> Heq. f_equal. now apply IH.
Qed.

Lemma render_id_inj (a b : Z) : render_id a = render_id b -> a = b.
Proof.
  unfold render_id. intros Heq.
  apply append_inj_l, append_inj_l, append_inj_r in Heq.
  now apply string_of_Z_inj.
Qed.

(** ** The observer's fields are nobody's but the callbacks' *)

Lemma stable_on_page {A} (m : Async Page A) : stable observation (on_page m).
Proof. apply stable_zoom. reflexivity. Qed.

Lemma stable_update_self (f : EmbedMermaid -> EmbedMermaid) :
  (forall e, _tmpContainer (f e) = _tmpContainer e) ->
  (forall e, observer (f e) = observer e) ->
  stable observation (update_self f).
Proof.
  intros Htmp Hobs. apply stable_modify. intros w.
  unfold observation. cbn [self set_self]. now rewrite Htmp, Hobs.
Qed.

Ltac stabilize :=
  repeat first
    [ apply stable_ret
    | apply stable_throw
    | apply stable_get
    | apply stable_on_page
    | apply stable_await
    | apply stable_update_self; reflexivity
    | apply stable_bind; [|intros ?]
    | progress cbv zeta
    | match goal with
      | |- stable _ (if ?b then _ else _) => destruct b
      | |- stable _ (match ?x with _ => _ end) => destruct x
      end ].

Lemma stable_render_body : stable observation render_body.
Proof.
  unfold render_body, hide_sourceContainer, set_innerHTML, insert,
    appendChild, set_child_innerHTML.
  stabilize.
Qed.

Lemma stable_render : stable observation render.
Proof.
  unfold render. apply stable_bind.
  - apply stable_await, stable_on_page.
  - intros _. apply stable_render_body.
Qed.

(** Calling [render] does nothing to [this] before its first [await]. *)
Lemma render_called (w : World) : self (fst (render w)) = self w.
Proof.
  unfold render, bind, await, on_page, zoom.
  destruct (initMermaid (page w)) as [p1 pr]. reflexivity.
Qed.

Lemma on_entry_hidden (entry : IntersectionObserverEntry) (w : World) :
  isIntersecting entry = false -> on_entry entry w = (w, []).
Proof. unfold on_entry. now intros ->. Qed.

Lemma on_entry_visible (entry : IntersectionObserverEntry) (w : World) t :
  isIntersecting entry = true ->
  _tmpContainer (self w) = Some t ->
  exists w1 started,
    on_entry entry w = (w1, [started])
    /\ keeps observation started
    /\ _tmpContainer (self w1) = Some t
    /\ is_observing w1 = false.
Proof.
  intros Hvis Htmp. unfold on_entry. rewrite Hvis.
  pose proof (render_called w) as Hself.
  pose proof (proj2 (stable_render w)) as Hkeeps.
  destruct (render w) as [w1 started]. cbn [fst snd] in *.
  rewrite Hself, Htmp.
  eexists; eexists. split; [reflexivity|]. split; [exact Hkeeps|].
  unfold is_observing, set_observing.
  cbn [self set_self _tmpContainer observer set_observer].
  split; [exact Htmp|].
  now destruct (observer (self w)).
Qed.

Lemma intersection_callback_spec (entries : list IntersectionObserverEntry) :
  forall w t,
    _tmpContainer (self w) = Some t ->
    exists w1 started,
      intersection_callback entries w = (w1, started)
      /\ List.length started = intersecting entries
      /\ Forall (keeps observation) started
      /\ _tmpContainer (self w1) = Some t
      /\ is_observing w1
         = (if existsb isIntersecting entries then false else is_observing w).
Proof.
  unfold intersecting.
  induction entries as [|entry rest IH]; intros w t Htmp; cbn [intersection_callback].
  - exists w, []. repeat split; [constructor | exact Htmp].
  - cbn [filter existsb]. destruct (isIntersecting entry) eqn:Hvis.
    + destruct (on_entry_visible entry w t Hvis Htmp)
        as (w1 & started & -> & Hkeeps & Htmp1 & Hobs1).
      destruct (IH w1 t Htmp1) as (w2 & more & -> & Hlen & Hall & Htmp2 & Hobs2).
      exists w2, (started :: more). cbn [app orb List.length].
      repeat split; [now rewrite Hlen | now constructor | exact Htmp2 |].
      rewrite Hobs2, Hobs1. now destruct (existsb isIntersecting rest).
    + rewrite (on_entry_hidden entry w Hvis).
      destruct (IH w t Htmp) as (w2 & more & -> & Hlen & Hall & Htmp2 & Hobs2).
      exists w2, more. cbn [app orb]. repeat split; assumption.
Qed.

Lemma is_observing_observation (w w' : World) :
  observation w' = observation w -> is_observing w' = is_observing w.
Proof. unfold observation, is_observing. intros Heq. injection Heq as _ ->. reflexivity. Qed.

Lemma notify_observing (entries : list IntersectionObserverEntry) (w : World) t :
  is_observing w = true ->
  _tmpContainer (self w) = Some t ->
  exists w1,
    notify entries w = (w1, intersecting entries)
    /\ _tmpContainer (self w1) = Some t
    /\ is_observing w1 = negb (existsb isIntersecting entries).
Proof.
  intros Hobs Htmp. unfold notify. rewrite Hobs.
  destruct (intersection_callback_spec entries w t Htmp)
    as (w1 & started & -> & Hlen & Hall & Htmp1 & Hobs1).
  pose proof (drain_keeps observation started Hall w1) as Hdrain.
  exists (drain started w1). rewrite Hlen. split; [reflexivity|].
  split.
  - unfold observation in Hdrain. injection Hdrain as -> _. exact Htmp1.
  - rewrite (is_observing_observation w1 (drain started w1) Hdrain), Hobs1, Hobs.
    now destruct (existsb isIntersecting entries).
Qed.

Lemma notify_unobserved (entries : list IntersectionObserverEntry) (w : World) :
  is_observing w = false -> notify entries w = (w, 0).
Proof. unfold notify. now intros ->. Qed.

Lemma notifications_unobserved (batches : list (list IntersectionObserverEntry)) :
  forall w, is_observing w = false -> notifications batches w = (w, 0).
Proof.
  induction batches as [|entries rest IH]; intros w Hobs; cbn [notifications].
  - reflexivity.
  - rewrite (notify_unobserved entries w Hobs), (IH w Hobs). reflexivity.
Qed.

Lemma intersecting_none (entries : list IntersectionObserverEntry) :
  existsb isIntersecting entries = false -> intersecting entries = 0.
Proof.
  unfold intersecting. induction entries as [|e rest IH]; cbn [existsb filter].
  - reflexivity.
  - destruct (isIntersecting e); [discriminate | exact IH].
Qed.

Lemma notifications_observing (batches : list (list IntersectionObserverEntry)) :
  forall w t,
    is_observing w = true ->
    _tmpContainer (self w) = Some t ->
    snd (notifications batches w) = intersecting (first_visible batches)
    /\ is_observing (fst (notifications batches w))
       = negb (existsb (existsb isIntersecting) batches).
Proof.
  induction batches as [|entries rest IH]; intros w t Hobs Htmp;
    cbn [notifications first_visible existsb].
  - now split.
  - destruct (notify_observing entries w t Hobs Htmp) as (w1 & -> & Htmp1 & Hobs1).
    destruct (existsb isIntersecting entries) eqn:Hany; cbn [negb orb] in *.
    + rewrite (notifications_unobserved rest w1 Hobs1). cbn [fst snd].
      split; [lia | exact Hobs1].
    + specialize (IH w1 t Hobs1 Htmp1).
      destruct (notifications rest w1) as [w2 m]. cbn [fst snd] in *.
      rewrite (intersecting_none entries Hany). exact IH.
Qed.

Lemma run_connectedCallback (w : World) :
  exists w',
    run connectedCallback w = (w', Returned tt)
    /\ is_observing w' = true
    /\ _tmpContainer (self w') = Some (next_node (page w))
    /\ childNodes (self w')
       = childNodes (self w) ++ [(next_node (page w), Element "div" None [])].
Proof. eexists. split; [reflexivity|]. repeat split. Qed.

End MermaidFacts.

(* ================================================================= *)
(** * Facts about the markdown converter *)

Module MarkdownFacts.
Import Markdown.

Lemma plain_char_escape (c : ascii) :
  plain_char c = true -> escape_char c = String c EmptyString.
Proof.
  unfold plain_char, escape_char. intros Hc. apply negb_true_iff in Hc.
  repeat (apply orb_false_elim in Hc as [Hc ?]).
  now rewrite Hc, H0, H1, H2.
Qed.

Lemma plain_char_not_lt (c : ascii) (r : string) :
  plain_char c = true -> prefix "<br>" (String c r) = false.
Proof.
  unfold plain_char. intros Hc. apply negb_true_iff in Hc.
  repeat (apply orb_false_elim in Hc as [Hc ?]).
  cbn [prefix]. destruct (ascii_dec "<" c) as [<-|_]; [discriminate | reflexivity].
Qed.

Lemma raw_text_plain (a rest : string) :
  plain a = true -> raw_text 0 (a ++ rest) = (a ++ raw_text 0 rest)%string.
Proof.
  induction a as [|c a IH]; cbn [plain append]; intros Hp; [reflexivity|].
  apply andb_prop in Hp as [Hc Ha].
  cbn [raw_text allowed_tags find].
  change ((String c a ++ rest)%string) with (String c (a ++ rest)).
  rewrite (plain_char_not_lt c _ Hc), (plain_char_escape c Hc).
  cbn [append]. now rewrite IH.
Qed.

Lemma raw_text_plain_all (a : string) : plain a = true -> raw_text 0 a = a.
Proof.
  intros Hp. pose proof (raw_text_plain a EmptyString Hp) as Heq.
  assert (Hnil : forall s, (s ++ EmptyString)%string = s).
  { induction s as [|c s IH]; cbn; [reflexivity | now rewrite IH]. }
  cbn [raw_text] in Heq. now rewrite !Hnil in Heq.
Qed.

(** A [<br>] between plain text goes through as it is. *)
Lemma raw_text_br (a b : string) :
  plain a = true -> plain b = true ->
  raw_text 0 (a ++ "<br>" ++ b) = (a ++ "<br>" ++ b)%string.
Proof.
  intros Ha Hb. rewrite (raw_text_plain a _ Ha). f_equal.
  assert (Hp : prefix EmptyString b = true) by (destruct b; reflexivity).
  cbn. rewrite Hp. cbn. now rewrite (raw_text_plain_all b Hb).
Qed.

Lemma plain_no_backtick (s : string) : plain s = true -> no_backtick s = true.
Proof.
  induction s as [|c s IH]; cbn [plain no_backtick]; [reflexivity|].
  intros Hp. apply andb_prop in Hp as [Hc Hs]. rewrite (IH Hs), andb_true_r.
  unfold plain_char in Hc. apply negb_true_iff in Hc.
  now apply orb_false_elim in Hc as [_ ->].
Qed.

Lemma split_on_backtick (a rest : string) :
  no_backtick a = true ->
  split_on "`" (a ++ "`" ++ rest) = a :: split_on "`" rest.
Proof.
  induction a as [|c a IH]; cbn [no_backtick append]; intros Hn.
  - reflexivity.
  - apply andb_prop in Hn as [Hc Ha]. apply negb_true_iff in Hc.
    cbn [split_on]. rewrite Hc. 
    change (("`" ++ rest)%string) with (String "`" rest) in IH.
    now rewrite (IH Ha).
Qed.

Lemma split_on_none (a : string) :
  no_backtick a = true -> split_on "`" a = [a].
Proof.
  induction a as [|c a IH]; cbn [no_backtick split_on]; intros Hn.
  - reflexivity.
  - apply andb_prop in Hn as [Hc Ha]. apply negb_true_iff in Hc.
    now rewrite Hc, (IH Ha).
Qed.

Lemma no_backtick_app (a b : string) :
  no_backtick a = true -> no_backtick b = true -> no_backtick (a ++ b) = true.
Proof.
  induction a as [|c a IH]; cbn [no_backtick append]; intros Ha Hb; [exact Hb|].
  apply andb_prop in Ha as [Hc Ha]. now rewrite Hc, (IH Ha Hb).
Qed.

(** Escaped text has no [<] left in it. *)
Lemma escapeHtml_no_lt (s : string) : contains (escapeHtml s) "<" = false.
Proof.
  unfold contains.
  assert (Hnone : index 0 "<" (escapeHtml s) = None); [|now rewrite Hnone].
  induction s as [|c s IH]; [reflexivity|].
  cbn [escapeHtml]. unfold escape_char.
  destruct (Ascii.eqb c "&"); [cbn; now rewrite IH|].
  destruct (Ascii.eqb c "<") eqn:Hlt; [cbn; now rewrite IH|].
  destruct (Ascii.eqb c ">"); [cbn; now rewrite IH|].
  destruct (Ascii.eqb c quote); [cbn; now rewrite IH|].
  cbn [append index prefix].
  destruct (ascii_dec "<" c) as [<-|_]; [discriminate|].
  now rewrite IH.
Qed.

End MarkdownFacts.

(* ================================================================= *)
(** * The markdown contract of [br.test.ts] *)

Section MarkdownClaims.

Import Markdown MarkdownFacts.

Lemma string_app_assoc (a b c : string) :
  ((a ++ b) ++ c = a ++ b ++ c)%string.
Proof. induction a as [|x a IH]; cbn; [reflexivity | now rewrite IH]. Qed.

Lemma inline_br (a b : string) :
  plain a = true -> plain b = true ->
  inline (a ++ "<br>" ++ b) = (a ++ "<br>" ++ b)%string.
Proof.
  intros Ha Hb. unfold inline.
  rewrite split_on_none.
  - cbn [spans]. now apply raw_text_br.
  - apply no_backtick_app; [now apply plain_no_backtick|].
    apply (no_backtick_app "<br>" b); [reflexivity | now apply plain_no_backtick].
Qed.

Lemma inline_code (a c b : string) :
  plain a = true -> no_backtick c = true -> plain b = true ->
  inline (a ++ "`" ++ c ++ "`" ++ b)
  = (a ++ "<code>" ++ escapeHtml c ++ "</code>" ++ b)%string.
Proof.
  intros Ha Hc Hb. unfold inline.
  rewrite (split_on_backtick a (c ++ "`" ++ b) (plain_no_backtick a Ha)).
  rewrite (split_on_backtick c b Hc).
  rewrite (split_on_none b (plain_no_backtick b Hb)).
  cbn [spans negb].
  rewrite (raw_text_plain_all a Ha), (raw_text_plain_all b Hb).
  now rewrite !string_app_assoc.
Qed.

(** C1: a raw [<br>] in prose or in a table cell comes out unescaped.  On
    ["foo<br>bar"] the output matches [<p>foo<br>bar</p>]; on the table of
    the test whose cell holds [foo<br>bar] the output contains
    [foo<br>bar]; and whatever plain text stands around it, the inline
    renderer, which paragraphs and table cells share, copies the tag. *)
Theorem br_preserved_outside_code :
  contains (markdownToHtml "foo<br>bar") "<p>foo<br>bar</p>" = true
  /\ contains (markdownToHtml tableString) "foo<br>bar" = true
  /\ (forall a b : string,
        plain a = true -> plain b = true ->
        inline (a ++ "<br>" ++ b) = (a ++ "<br>" ++ b)%string).
Proof.
  split; [vm_compute; reflexivity|].
  split; [vm_compute; reflexivity|].
  exact inline_br.
Qed.

Lemma br_preserved_outside_code_witness :
  plain "foo" = true /\ plain "bar" = true
  /\ inline ("foo" ++ "<br>" ++ "bar") = ("foo" ++ "<br>" ++ "bar")%string.
Proof.
  split; [reflexivity|]. split; [reflexivity|].
  apply (proj2 (proj2 br_preserved_outside_code)); reflexivity.
Defined.

(** C2: a [<br>] in an inline code span or in a fenced code block comes out
    entity-escaped.  On [foo`<br>`bar] the output matches
    [<p>foo<code>&lt;br&gt;</code>bar</p>]; on the fenced block of the test
    it contains [&lt;br&gt;]; neither output has a raw [<br>]; and for any
    code span between plain text the content is escaped, escaped text
    having no [<] in it. *)
Theorem br_escaped_inside_code :
  contains (markdownToHtml "foo`<br>`bar")
           "<p>foo<code>&lt;br&gt;</code>bar</p>" = true
  /\ contains (markdownToHtml fencedString) "&lt;br&gt;" = true
  /\ contains (markdownToHtml "foo`<br>`bar") "<br>" = false
  /\ contains (markdownToHtml fencedString) "<br>" = false
  /\ (forall a c b : string,
        plain a = true -> no_backtick c = true -> plain b = true ->
        inline (a ++ "`" ++ c ++ "`" ++ b)
        = (a ++ "<code>" ++ escapeHtml c ++ "</code>" ++ b)%string)
  /\ (forall c : string, contains (escapeHtml c) "<" = false).
Proof.
  repeat (split; [vm_compute; reflexivity|]).
  split; [exact inline_code | exact escapeHtml_no_lt].
Qed.

Lemma br_escaped_inside_code_witness :
  plain "foo" = true /\ no_backtick "<br>" = true /\ plain "bar" = true
  /\ inline ("foo" ++ "`" ++ "<br>" ++ "`" ++ "bar")
     = ("foo" ++ "<code>" ++ escapeHtml "<br>" ++ "</code>" ++ "bar")%string.
Proof.
  repeat (split; [reflexivity|]).
  apply (proj1 (proj2 (proj2 (proj2 (proj2 br_escaped_inside_code)))));
    reflexivity.
Defined.

End MarkdownClaims.

(* ================================================================= *)
(** * The risk checks *)

Section RiskClaims.

Context `{Host}.

(** C5: a source with more than 10 occurrences of [&], wherever they are,
    has [chainingOfLinksOver.yes = true] in the risk set that
    [getPotentialPerformanceRisk] returns. *)
Theorem chaining_of_links_over (source : jsstring) (p : Page) :
  10 < count_occ N.eq_dec source ampersand ->
  exists p' risk,
    run (getPotentialPerformanceRisk source) p = (p', Returned risk)
    /\ yes (chainingOfLinksOver risk) = true.
Proof.
  intros Hmany.
  destruct (run_getPotentialPerformanceRisk source p)
    as (risk & Hrun & _ & _ & Hchain).
  exists (logged p (parse_events p source)), risk. split; [exact Hrun|].
  rewrite Hchain, match_amp_length. now apply Nat.ltb_lt.
Qed.

(** C6: when the call [mermaid!.mermaidAPI.parse(source)] throws,
    [getPotentialPerformanceRisk] returns all the same: the exception goes
    to the console, [syntaxError.yes] is [true] and nothing is thrown to
    the caller.  When the call returns, [syntaxError.yes] is [false] and
    nothing is logged. *)
Theorem parse_exception_is_caught (source : jsstring) (p : Page) :
  (forall e,
     parse_call p source = Some e ->
     exists risk before,
       run (getPotentialPerformanceRisk source) p
       = (logged p (before ++ [EConsoleLog syntax_message e]), Returned risk)
       /\ yes (syntaxError risk) = true)
  /\ (parse_call p source = None ->
      exists risk,
        run (getPotentialPerformanceRisk source) p
        = (logged p [EParse source], Returned risk)
        /\ yes (syntaxError risk) = false).
Proof.
  destruct (run_getPotentialPerformanceRisk source p)
    as (risk & Hrun & Hsyn & _).
  unfold parse_events, parse_call in *.
  destruct (mermaid_defined (globals p)).
  - split.
    + intros e He. rewrite He in *. exists risk, [EParse source]. now split.
    + intros Hnone. rewrite Hnone in *. now exists risk.
  - split; [|discriminate].
    intros e [= <-]. exists risk, []. now split.
Qed.

End RiskClaims.

(* ================================================================= *)
(** * Loading the library *)

Section InitClaims.

Context `{Host}.

(** What a call of [initMermaid] can leave on the record, and what it
    leaves alone. *)
Lemma initMermaid_frame (p p1 : Page) (o : Outcome unit) :
  run initMermaid p = (p1, o) ->
  exists events,
    trace p1 = trace p ++ events
    /\ forallb is_init events = true
    /\ now p1 = now p
    /\ next_node p1 = next_node p
    /\ (o = Returned tt -> mermaid_defined (globals p1) = true).
Proof.
  rewrite run_initMermaid.
  destruct (mermaid_defined (globals p)) eqn:Hdef.
  - intros [= <- <-]. exists []. rewrite app_nil_r. now repeat split.
  - cbv zeta.
    destruct (run (loadScript mermaid_src "mermaid-js") (globals p))
      as [g1 [[]|e]].
    + destruct (mermaid_defined g1) eqn:Hg1; intros [= <- <-].
      * eexists. split; [reflexivity|]. now repeat split.
      * eexists. split; [reflexivity|]. repeat split. discriminate.
    + intros [= <- <-]. eexists. split; [reflexivity|].
      repeat split. discriminate.
Qed.


End InitClaims.


Lemma chaining_of_links_over_witness :
  10 < count_occ N.eq_dec Sample.chained ampersand
  /\ exists p' risk,
       run (@getPotentialPerformanceRisk Sample.host Sample.chained)
           Sample.loaded_page = (p', Returned risk)
       /\ yes (chainingOfLinksOver risk) = true.
Proof.
  assert (Hmany : 10 < count_occ N.eq_dec Sample.chained ampersand)
    by (vm_compute; lia).
  split; [exact Hmany|].
  exact (@chaining_of_links_over Sample.host Sample.chained Sample.loaded_page Hmany).
Defined.

Lemma parse_exception_is_caught_witness :
  @parse_call Sample.host Sample.loaded_page Sample.broken
  = Some (Failure "Parse error")
  /\ @parse_call Sample.host Sample.loaded_page Sample.flowchart = None
  /\ (exists risk before,
        run (@getPotentialPerformanceRisk Sample.host Sample.broken)
            Sample.loaded_page
        = (logged Sample.loaded_page
             (before ++ [EConsoleLog syntax_message (Failure "Parse error")]),
           Returned risk)
        /\ yes (syntaxError risk) = true)
  /\ (exists risk,
        run (@getPotentialPerformanceRisk Sample.host Sample.flowchart)
            Sample.loaded_page
        = (logged Sample.loaded_page [EParse Sample.flowchart], Returned risk)
        /\ yes (syntaxError risk) = false).
Proof.
  split; [reflexivity|]. split; [reflexivity|]. split.
  - apply (proj1 (@parse_exception_is_caught Sample.host Sample.broken
                    Sample.loaded_page)).
    reflexivity.
  - apply (proj2 (@parse_exception_is_caught Sample.host Sample.flowchart
                    Sample.loaded_page)).
    reflexivity.
Defined.

(* ================================================================= *)
(** * Rendering *)

Section RenderClaims.

Context `{Host}.

Lemma falsy_false (s : jsstring) : s <> [] -> falsy s = false.
Proof. destruct s; [congruence | reflexivity]. Qed.

Lemma includes_true_flags (risk : PotentialRisk) :
  includes_true (map yes (Object_values risk))
  = yes (syntaxError risk) || yes (charLimitOver risk)
    || yes (chainingOfLinksOver risk).
Proof.
  unfold includes_true, Object_values. cbn [map existsb].
  destruct (yes (syntaxError risk)), (yes (charLimitOver risk)),
    (yes (chainingOfLinksOver risk)); reflexivity.
Qed.

Lemma filter_app_nil {A} (f : A -> bool) (a b : list A) :
  filter f a = [] -> filter f (a ++ b) = filter f b.
Proof. intros Ha. now rewrite filter_app, Ha. Qed.

(** C3, as the code has it: for a non-empty source, once the library is
    there and the first child is the source element, [render] ends in one
    of two ways.  If a risk flag is set it assigns the error list to
    [innerHTML] and does not call [mermaidAPI.render]; if none is set it
    calls [mermaidAPI.render] once and does not assign [innerHTML].  The
    identifier of the call is made of the clock reading, and two readings
    give one identifier only if they are the same reading. *)
Theorem render_outcomes (w : World) (p1 : Page) i tag st cs rest :
  run initMermaid (page w) = (p1, Returned tt) ->
  childNodes (self w) = (i, Element tag st cs) :: rest ->
  content_of (self w) <> [] ->
  (exists risk p2 w' o events,
     run (getPotentialPerformanceRisk (content_of (self w)))
         (logged p1 [ESetAttribute "style" "display:none"])
     = (p2, Returned risk)
     /\ run render w = (w', o)
     /\ trace (page w') = trace p1 ++ events
     /\ (yes (syntaxError risk) || yes (charLimitOver risk)
         || yes (chainingOfLinksOver risk) = true ->
         o = Returned tt
         /\ filter is_innerHTML events = [EInnerHTML (error_markup risk)]
         /\ map snd (childNodes (self w')) = parse_html (error_markup risk)
         /\ filter is_render events = [])
     /\ (yes (syntaxError risk) || yes (charLimitOver risk)
         || yes (chainingOfLinksOver risk) = false ->
         filter is_render events
         = [ERender (render_id (now (page w))) (content_of (self w))]
         /\ filter is_innerHTML events = []))
  /\ (forall t1 t2 : Z, render_id t1 = render_id t2 -> t1 = t2).
Proof.
  intros Hinit Hkids Hfull. split; [|exact render_id_inj].
  destruct (initMermaid_frame (page w) p1 (Returned tt) Hinit)
    as (_ & _ & _ & Hnow & _ & _).
  rewrite run_render, Hinit.
  destruct (run_render_body (set_page w p1) i tag st cs rest Hkids
              (falsy_false _ Hfull))
    as (risk & Hrisk & _ & _ & _ & w' & o & Hrun & _ & _ & _ & _ & Hcases).
  cbn [self page set_page] in *.
  destruct (parse_events_quiet p1 (content_of (self w))) as [Hq1 Hq2].
  rewrite includes_true_flags in Hcases.
  exists risk. eexists. exists w', o.
  destruct (yes (syntaxError risk) || yes (charLimitOver risk)
            || yes (chainingOfLinksOver risk)).
  - destruct Hcases as (Ho & Htrace & Hchildren & _).
    eexists. split; [exact Hrisk|]. split; [exact Hrun|].
    split; [exact Htrace|]. split; [|discriminate].
    intros _. cbn [app filter is_innerHTML is_render].
    rewrite !filter_app, Hq1, Hq2. cbn [app filter is_innerHTML is_render].
    repeat split; [exact Ho|].
    rewrite Hchildren. apply map_snd_combine. now rewrite length_seq.
  - rewrite Hnow in Hcases.
    destruct (mermaidAPI_render (render_id (now (page w))) (content_of (self w)))
      as [svgCode|e]; destruct Hcases as (Ho & Htrace & _);
      (eexists; split; [exact Hrisk|]; split; [exact Hrun|];
       split; [exact Htrace|]; split; [discriminate|]; intros _;
       cbn [app filter is_innerHTML is_render];
       rewrite !filter_app, Hq1, Hq2; now split).
Qed.

(** C4: a source of more than 2000 code units has [charLimitOver.yes =
    true] in its risk set, and [render] on a widget with such a content
    does not call [mermaidAPI.render]. *)
Theorem char_limit_over (w : World) :
  2000 < List.length (content_of (self w)) ->
  (forall p, exists p' risk,
     run (getPotentialPerformanceRisk (content_of (self w))) p
     = (p', Returned risk)
     /\ yes (charLimitOver risk) = true)
  /\ exists w' o events,
       run render w = (w', o)
       /\ trace (page w') = trace (page w) ++ events
       /\ filter is_render events = [].
Proof.
  intros Hlong.
  assert (Hover : (MAX_CHAR_LIMIT <? List.length (content_of (self w)))%nat = true)
    by now apply Nat.ltb_lt.
  split.
  - intros p.
    destruct (run_getPotentialPerformanceRisk (content_of (self w)) p)
      as (risk & Hrun & _ & Hchar & _).
    eexists; exists risk. split; [exact Hrun | now rewrite Hchar].
  - rewrite run_render.
    destruct (run initMermaid (page w)) as [p1 o1] eqn:Hinit.
    destruct (initMermaid_frame (page w) p1 o1 Hinit)
      as (events & Htrace & Hall & _).
    destruct (init_events_quiet events Hall) as [Hquiet _].
    destruct o1 as [[]|e];
      [|exists (set_page w p1), (Thrown e), events; now repeat split].
    assert (Hfull : falsy (content_of (self (set_page w p1))) = false).
    { cbn [self set_page]. destruct (content_of (self w)); [cbn in Hlong; lia|reflexivity]. }
    pose proof (run_render_body_untyped (set_page w p1) Hfull) as Huntyped.
    destruct (childNodes (self (set_page w p1)))
      as [|[i [tag st cs|data]] rest] eqn:Hkids.
    + destruct Huntyped as [e ->].
      exists (set_page w p1), (Thrown e), events. now repeat split.
    + destruct (run_render_body (set_page w p1) i tag st cs rest Hkids Hfull)
        as (risk & _ & _ & Hchar & _ & w' & o & Hrun & _ & _ & _ & _ & Hcases).
      cbn [self page set_page] in *.
      rewrite includes_true_flags, Hchar, Hover, orb_true_r in Hcases.
      cbn [orb] in Hcases. destruct Hcases as (_ & Hw' & _).
      exists w', o. eexists. split; [exact Hrun|].
      rewrite Hw', Htrace, <- app_assoc. split; [reflexivity|].
      rewrite (filter_app_nil _ _ _ Hquiet).
      cbn [app filter is_render]. rewrite filter_app.
      destruct (parse_events_quiet p1 (content_of (self w))) as [-> _].
      reflexivity.
    + destruct Huntyped as [e ->].
      exists (set_page w p1), (Thrown e), events. now repeat split.
Qed.

(** C9, as the code has it: on a widget whose content is empty, [render]
    is over once [initMermaid] is: [this] is as it was, the source element
    is not hidden, no risk is computed, no error list is written and
    [mermaidAPI.render] is not called; what is on the record is what
    [initMermaid] put there, and that is nothing when [mermaid] is already
    defined. *)
Theorem render_empty_content (w : World) :
  falsy (content_of (self w)) = true ->
  (exists p1 o events,
     run initMermaid (page w) = (p1, o)
     /\ run render w = (set_page w p1, o)
     /\ self (set_page w p1) = self w
     /\ trace p1 = trace (page w) ++ events
     /\ forallb is_init events = true)
  /\ (mermaid_defined (globals (page w)) = true ->
      run render w = (w, Returned tt)).
Proof.
  intros Hempty. split.
  - destruct (run initMermaid (page w)) as [p1 o] eqn:Hinit.
    destruct (initMermaid_frame (page w) p1 o Hinit)
      as (events & Htrace & Hall & _).
    exists p1, o, events. split; [reflexivity|].
    split; [|now repeat split].
    rewrite run_render, Hinit. destruct o as [[]|e]; [|reflexivity].
    now apply run_render_body_empty.
  - intros Hdef. rewrite run_render, run_initMermaid, Hdef.
    rewrite run_render_body_empty by exact Hempty.
    now destruct w.
Qed.

Lemma map_filled_older (n : nat) (markup : string) (l : list Child) :
  (forall j, In j (map fst l) -> j < n) -> map (filled n markup) l = l.
Proof.
  induction l as [|[j c] l IH]; cbn [map fst In]; intros Hold; [reflexivity|].
  rewrite IH by (intros k Hk; apply Hold; now right).
  unfold filled at 1. cbn [fst snd].
  destruct (Nat.eqb_spec j n) as [->|_]; [|reflexivity].
  specialize (Hold n (or_introl eq_refl)). lia.
Qed.

Lemma map_fst_filled (n : nat) (markup : string) (l : list Child) :
  map fst (map (filled n markup) l) = map fst l.
Proof.
  induction l as [|[j c] l IH]; cbn [map]; [reflexivity|].
  rewrite IH. unfold filled. cbn [fst snd].
  now destruct (j =? n)%nat.
Qed.

(** Attaching the widget and rendering it keep its objects older than the
    next one the document makes. *)
Lemma well_formed_connectedCallback (w : World) :
  well_formed w -> well_formed (fst (run connectedCallback w)).
Proof.
  intros [Hold Htmp].
  destruct (run_connectedCallback w) as (w' & Hrun & _ & Htmp' & Hkids).
  rewrite Hrun. cbn [fst]. unfold well_formed, identities. rewrite Hkids, Htmp'.
  assert (Hnext : next_node (page w') = S (next_node (page w))).
  { pose proof Hrun as Heq. cbn in Heq. injection Heq as <-. reflexivity. }
  rewrite Hnext. split.
  - intros i Hi. rewrite map_app in Hi. apply in_app_or in Hi as [Hi|[<-|[]]].
    + specialize (Hold i Hi). lia.
    + cbn. lia.
  - intros t [= <-]. lia.
Qed.

Lemma well_formed_render (w : World) :
  well_formed w -> well_formed (fst (run render w)).
Proof.
  intros [Hold Htmp]. rewrite run_render.
  destruct (run initMermaid (page w)) as [p1 o1] eqn:Hinit.
  destruct (initMermaid_frame (page w) p1 o1 Hinit)
    as (_ & _ & _ & _ & Hnext & _).
  assert (Hsame : well_formed (set_page w p1)).
  { split; cbn [self page set_page]; rewrite Hnext; assumption. }
  destruct o1 as [[]|e]; [|exact Hsame].
  destruct (falsy (content_of (self (set_page w p1)))) eqn:Hfull.
  { now rewrite run_render_body_empty. }
  pose proof (run_render_body_untyped (set_page w p1) Hfull) as Huntyped.
  destruct (childNodes (self (set_page w p1)))
    as [|[i [tag st cs|data]] rest] eqn:Hkids;
    [destruct Huntyped as [e ->]; exact Hsame
    |
    |destruct Huntyped as [e ->]; exact Hsame].
  destruct (run_render_body (set_page w p1) i tag st cs rest Hkids Hfull)
    as (risk & _ & _ & _ & _ & w' & o & -> & _ & _ & Htmp' & _ & Hcases).
  cbn [fst self page set_page] in *.
  assert (Hids : forall j, In j (map fst (concealed i tag cs :: rest)) ->
                           j < next_node p1).
  { intros j Hj. rewrite Hnext. apply Hold. unfold identities.
    rewrite Hkids. exact Hj. }
  unfold well_formed, identities. rewrite Htmp'.
  destruct (includes_true (map yes (Object_values risk))).
  - destruct Hcases as (_ & _ & -> & ->). split.
    + intros j Hj. rewrite map_fst_combine in Hj by now rewrite length_seq.
      apply in_seq in Hj. lia.
    + intros t Ht. specialize (Htmp t Ht). lia.
  - destruct (mermaidAPI_render (render_id (now p1)) (content_of (self w)))
      as [svgCode|e]; destruct Hcases as (_ & _ & -> & ->).
    + split.
      * intros j Hj. rewrite map_fst_filled, app_comm_cons, map_app in Hj.
        apply in_app_or in Hj as [Hj|[<-|[]]]; [specialize (Hids j Hj)|cbn]; lia.
      * intros t Ht. specialize (Htmp t Ht). lia.
    + split; [exact Hids|]. intros t Ht. specialize (Htmp t Ht). lia.
Qed.

(** C10: for a non-empty source with a risk flag set, the children of the
    widget after [render] are the nodes of the error list and nothing
    else: no child it had before is a child now, neither the source
    element nor the temporary container.  With no flag set the source
    element is still the first child, with [display:none] on it, followed
    by the children that were there and by what [render] appended. *)
Theorem error_list_replaces_children (w : World) (p1 : Page) i tag st cs rest :
  run initMermaid (page w) = (p1, Returned tt) ->
  childNodes (self w) = (i, Element tag st cs) :: rest ->
  content_of (self w) <> [] ->
  well_formed w ->
  exists risk p2 w' o,
    run (getPotentialPerformanceRisk (content_of (self w)))
        (logged p1 [ESetAttribute "style" "display:none"])
    = (p2, Returned risk)
    /\ run render w = (w', o)
    /\ (yes (syntaxError risk) || yes (charLimitOver risk)
        || yes (chainingOfLinksOver risk) = true ->
        map snd (childNodes (self w')) = parse_html (error_markup risk)
        /\ (forall j, In j (identities (self w)) ->
                      ~ In j (identities (self w')))
        /\ (forall t, _tmpContainer (self w) = Some t ->
                      ~ In t (identities (self w'))))
    /\ (yes (syntaxError risk) || yes (charLimitOver risk)
        || yes (chainingOfLinksOver risk) = false ->
        exists appended,
          childNodes (self w') = concealed i tag cs :: rest ++ appended).
Proof.
  intros Hinit Hkids Hfull [Hold Htmp].
  destruct (initMermaid_frame (page w) p1 (Returned tt) Hinit)
    as (_ & _ & _ & _ & Hnext & _).
  rewrite run_render, Hinit.
  destruct (run_render_body (set_page w p1) i tag st cs rest Hkids
              (falsy_false _ Hfull))
    as (risk & Hrisk & _ & _ & _ & w' & o & Hrun & _ & _ & _ & _ & Hcases).
  cbn [self page set_page] in *.
  rewrite includes_true_flags in Hcases.
  exists risk. eexists. exists w', o.
  split; [exact Hrisk|]. split; [exact Hrun|].
  destruct (yes (syntaxError risk) || yes (charLimitOver risk)
            || yes (chainingOfLinksOver risk)).
  - destruct Hcases as (_ & _ & Hchildren & _).
    split; [|discriminate]. intros _.
    assert (Hids : identities (self w')
                   = seq (next_node p1)
                         (List.length (parse_html (error_markup risk)))).
    { unfold identities. rewrite Hchildren.
      apply map_fst_combine. now rewrite length_seq. }
    split; [|split].
    + rewrite Hchildren. apply map_snd_combine. now rewrite length_seq.
    + intros j Hj Hin. rewrite Hids in Hin. apply in_seq in Hin.
      specialize (Hold j Hj). lia.
    + intros t Ht Hin. rewrite Hids in Hin. apply in_seq in Hin.
      specialize (Htmp t Ht). lia.
  - split; [discriminate|]. intros _.
    destruct (mermaidAPI_render (render_id (now p1)) (content_of (self w)))
      as [svgCode|e]; destruct Hcases as (_ & _ & Hchildren & _).
    + exists [(next_node p1, Element "div" None (parse_html svgCode))].
      rewrite Hchildren, app_comm_cons, map_app, map_filled_older.
      * cbn [map]. unfold filled. cbn [fst snd with_children].
        now rewrite Nat.eqb_refl.
      * intros j Hj. rewrite Hnext. apply Hold.
        unfold identities. rewrite Hkids. exact Hj.
    + exists []. now rewrite app_nil_r.
Qed.

End RenderClaims.

(* ================================================================= *)
(** * The visibility observer *)

Section ObserverClaims.

Context `{Host}.

Lemma intersecting_some (entries : list IntersectionObserverEntry) :
  existsb isIntersecting entries = true -> 1 <= intersecting entries.
Proof.
  unfold intersecting.
  induction entries as [|e entries IH]; cbn [existsb filter]; [discriminate|].
  destruct (isIntersecting e); cbn [orb List.length]; [lia | exact IH].
Qed.

Lemma first_visible_some (batches : list (list IntersectionObserverEntry)) :
  existsb (existsb isIntersecting) batches = true ->
  In (first_visible batches) batches
  /\ existsb isIntersecting (first_visible batches) = true.
Proof.
  induction batches as [|entries rest IH]; cbn [existsb first_visible];
    [discriminate|].
  destruct (existsb isIntersecting entries) eqn:Hany; cbn [orb].
  - intros _. split; [now left | exact Hany].
  - intros Hrest. destruct (IH Hrest) as [Hin Hvis].
    split; [now right | exact Hvis].
Qed.

Lemma first_visible_none (batches : list (list IntersectionObserverEntry)) :
  existsb (existsb isIntersecting) batches = false -> first_visible batches = [].
Proof.
  induction batches as [|entries rest IH]; cbn [existsb first_visible];
    [reflexivity|].
  destruct (existsb isIntersecting entries); cbn [orb]; [discriminate | exact IH].
Qed.

(** The calls of [render] that the observer of an attached widget makes:
    as many as the first callback with an intersecting entry has such
    entries, none from a later callback; by the time that callback returns
    the container is no longer observed.  When no callback carries more
    than one intersecting entry, [render] is called once if an entry is
    ever intersecting and never otherwise. *)
Theorem observer_renders_on_first_visibility
  (w : World) (batches : list (list IntersectionObserverEntry)) :
  let attached := fst (run connectedCallback w) in
  snd (notifications batches attached) = intersecting (first_visible batches)
  /\ is_observing (fst (notifications batches attached))
     = negb (existsb (existsb isIntersecting) batches)
  /\ (forall entries,
        existsb isIntersecting entries = true ->
        is_observing (fst (intersection_callback entries attached)) = false)
  /\ ((forall entries, In entries batches -> intersecting entries <= 1) ->
      snd (notifications batches attached)
      = if existsb (existsb isIntersecting) batches then 1 else 0).
Proof.
  intros attached.
  destruct (run_connectedCallback w) as (w' & Hrun & Hobs & Htmp & _).
  assert (Hattached : attached = w') by (unfold attached; now rewrite Hrun).
  rewrite Hattached. clear attached Hattached.
  destruct (notifications_observing batches w' _ Hobs Htmp) as [Hcount Hafter].
  split; [exact Hcount|]. split; [exact Hafter|]. split.
  - intros entries Hany.
    destruct (intersection_callback_spec entries w' _ Htmp)
      as (w1 & started & -> & _ & _ & _ & Hobs1).
    cbn [fst]. now rewrite Hobs1, Hany.
  - intros Hsingle. rewrite Hcount.
    destruct (existsb (existsb isIntersecting) batches) eqn:Hany.
    + destruct (first_visible_some batches Hany) as [Hin Hvis].
      pose proof (Hsingle _ Hin). pose proof (intersecting_some _ Hvis). lia.
    + now rewrite (first_visible_none batches Hany).
Qed.

(** Detaching the widget before any entry was intersecting cancels the
    render: no callback calls it afterwards. *)
Lemma detached_never_renders
  (w : World) (batches : list (list IntersectionObserverEntry)) :
  snd (notifications batches (fst (run disconnectedCallback w))) = 0.
Proof.
  rewrite notifications_unobserved; [reflexivity|].
  unfold is_observing, disconnectedCallback. rewrite run_bind, run_get.
  destruct (observer (self w)) as [o|] eqn:Hobs.
  - destruct (_tmpContainer (self w)); cbn; rewrite ?Hobs; reflexivity.
  - cbn. now rewrite Hobs.
Qed.

End ObserverClaims.

(* ================================================================= *)
(** * The statements at work *)

Section Examples.

Import Sample.

#[local] Existing Instance Sample.host.

Lemma observer_renders_on_first_visibility_witness :
  (forall entries, In entries [[hidden]; [visible]; [visible; hidden]] ->
                   intersecting entries <= 1)
  /\ snd (notifications [[hidden]; [visible]; [visible; hidden]]
                        (fst (run connectedCallback one))) = 1.
Proof.
  assert (Hsingle : forall entries,
             In entries [[hidden]; [visible]; [visible; hidden]] ->
             intersecting entries <= 1).
  { intros entries [<-|[<-|[<-|[]]]]; vm_compute; lia. }
  split; [exact Hsingle|].
  exact (proj2 (proj2 (proj2
           (@observer_renders_on_first_visibility host one
              [[hidden]; [visible]; [visible; hidden]]))) Hsingle).
Defined.

(** C8, where the code departs from it: the observer of an attached widget
    delivers one callback whose entries are intersecting, not
    intersecting, intersecting.  The observer should trigger [render] once;
    that one callback calls it twice, the library renders twice and two
    containers holding an SVG are appended, although the container is no
    longer observed when the callback returns.  The same widget with one
    intersecting entry is rendered once, with one container appended. *)
Theorem two_renders_from_one_callback :
  let after := fst (notifications [[visible; hidden; visible]] attached) in
  snd (notifications [[visible; hidden; visible]] attached) = 2
  /\ List.length (filter is_render (trace (page after))) = 2
  /\ List.length (childNodes (self after))
     = List.length (childNodes (self attached)) + 2
  /\ is_observing after = false
  /\ snd (notifications [[visible]] attached) = 1
  /\ List.length (childNodes (self (fst (notifications [[visible]] attached))))
     = List.length (childNodes (self attached)) + 1.
Proof. vm_compute. repeat split. Qed.

(** Two renders within one reading of the clock hand the same identifier
    to [mermaidAPI.render]. *)
Lemma two_renders_one_identifier :
  now (page one) = now (page two)
  /\ render_ids (trace (page (fst (run render two))))
     = ["mermaid-container-1636000000000-render";
        "mermaid-container-1636000000000-render"]
  /\ ~ NoDup (render_ids (trace (page (fst (run render two))))).
Proof.
  split; [reflexivity|].
  assert (Hids : render_ids (trace (page (fst (run render two))))
                 = ["mermaid-container-1636000000000-render";
                    "mermaid-container-1636000000000-render"])
    by (vm_compute; reflexivity).
  split; [exact Hids|].
  rewrite Hids. intros Hnodup. inversion Hnodup as [|x l Hnotin _].
  apply Hnotin. now left.
Qed.

(** When the clock has moved between the two renders the identifiers
    differ. *)
Lemma later_render_other_identifier :
  NoDup (render_ids (trace (page (fst (run render two_later))))).
Proof.
  assert (Hids : render_ids (trace (page (fst (run render two_later))))
                 = ["mermaid-container-1636000000000-render";
                    "mermaid-container-1636000000001-render"])
    by (vm_compute; reflexivity).
  rewrite Hids. constructor; [|constructor; [intros []|constructor]].
  intros [Heq|[]]. discriminate.
Qed.

(** On a page without the library, [render] of a widget with no content
    loads the script and initializes [mermaid] before it returns. *)
Lemma render_of_empty_widget_loads_library :
  content_of (self empty) = []
  /\ trace (page empty) = []
  /\ trace (page (fst (run render empty)))
     = [ELoadScript mermaid_src "mermaid-js";
        EInitialize false;
        EApiInitialize api_config]
  /\ mermaid_defined (globals (page (fst (run render empty)))) = true.
Proof. vm_compute. repeat split. Qed.

Lemma render_outcomes_witness :
  exists w' o,
    run render one = (w', o)
    /\ filter is_render (trace (page w'))
       = [ERender (render_id (now (page one))) flowchart]
    /\ filter is_innerHTML (trace (page w')) = [].
Proof.
  destruct (proj1 (@render_outcomes host one loaded_page 0 "pre" None
                     [Text flowchart] [] eq_refl eq_refl
                     ltac:(discriminate)))
    as (risk & p2 & w' & o & events & Hrisk & Hrun & Htrace & _ & Hclean).
  exists w', o. split; [exact Hrun|].
  assert (Hflags : yes (syntaxError risk) || yes (charLimitOver risk)
                   || yes (chainingOfLinksOver risk) = false).
  { vm_compute in Hrisk. injection Hrisk as _ <-. reflexivity. }
  destruct (Hclean Hflags) as [Hr Hi].
  rewrite Htrace. cbn [trace loaded_page app]. now split.
Defined.

Lemma char_limit_over_witness :
  2000 < List.length (content_of (self {| page := loaded_page;
                                          self := widget 0 long_source |}))
  /\ exists w' o events,
       run render {| page := loaded_page; self := widget 0 long_source |}
       = (w', o)
       /\ trace (page w') = events
       /\ filter is_render events = [].
Proof.
  assert (Hlong : 2000 < List.length
                    (content_of (self {| page := loaded_page;
                                         self := widget 0 long_source |})))
    by (vm_compute; lia).
  split; [exact Hlong|].
  destruct (proj2 (@char_limit_over host {| page := loaded_page;
                                      self := widget 0 long_source |} Hlong))
    as (w' & o & events & Hrun & Htrace & Hquiet).
  exists w', o, events. split; [exact Hrun|]. split; [exact Htrace|exact Hquiet].
Defined.

Lemma render_empty_content_witness :
  falsy (content_of (self empty)) = true
  /\ exists p1 o,
       run render empty = (set_page empty p1, o)
       /\ self (set_page empty p1) = self empty.
Proof.
  split; [reflexivity|].
  destruct (proj1 (@render_empty_content host empty eq_refl))
    as (p1 & o & events & _ & Hrun & Hself & _).
  exists p1, o. split; [exact Hrun | exact Hself].
Defined.

Lemma error_list_replaces_children_witness :
  well_formed oversized
  /\ exists w' o,
       run render oversized = (w', o)
       /\ ~ In 0 (identities (self w'))
       /\ ~ In 2 (identities (self w')).
Proof.
  assert (Hwf : well_formed oversized).
  { split.
    - intros i [<-|[<-|[]]]; vm_compute; lia.
    - intros t [= <-]. vm_compute; lia. }
  split; [exact Hwf|].
  destruct (@error_list_replaces_children host oversized (page oversized) 0 "pre" None
              [Text long_source] [(2, Element "div" None [])]
              eq_refl eq_refl ltac:(discriminate) Hwf)
    as (risk & p2 & w' & o & Hrisk & Hrun & Herror & _).
  exists w', o. split; [exact Hrun|].
  assert (Hflags : yes (syntaxError risk) || yes (charLimitOver risk)
                   || yes (chainingOfLinksOver risk) = true).
  { vm_compute in Hrisk. injection Hrisk as _ <-. reflexivity. }
  destruct (Herror Hflags) as (_ & Hgone & Htmp).
  split.
  - apply Hgone. now left.
  - apply (Htmp 2). reflexivity.
Defined.


End Examples.

(* ================================================================= *)
(** * More about the risk checks *)

Section RiskFacts.

Context `{Host}.

(** The object [getPotentialPerformanceRisk] returns, field by field. *)
Lemma getPotentialPerformanceRisk_value (source : jsstring) (p : Page) :
  exists risk,
    run (getPotentialPerformanceRisk source) p
    = (logged p (parse_events p source), Returned risk)
    /\ yes (syntaxError risk)
       = (match parse_call p source with Some _ => true | None => false end)
    /\ yes (charLimitOver risk) = (MAX_CHAR_LIMIT <? List.length source)%nat
    /\ yes (chainingOfLinksOver risk)
       = (MAX_CHAINING_OF_LINKS_LIMIT <? count_occ N.eq_dec source ampersand)%nat
    /\ message (syntaxError risk) = "<li>シンタックスエラーです</li>"
    /\ message (charLimitOver risk)
       = "<li>ブロックあたりの文字数上限は2000です</li>"
    /\ message (chainingOfLinksOver risk)
       = "<li>ブロックあたりの<code>&</code>によるチェイン上限は10です</li>".
Proof.
  rewrite <- match_amp_length.
  unfold getPotentialPerformanceRisk, parse_call, parse_events.
  rewrite run_bind, run_try_catch, run_bind, run_with_mermaid.
  destruct (mermaid_defined (globals p)) eqn:Hdef.
  - rewrite run_bind, run_emit.
    destruct (mermaidAPI_parse source) as [e|].
    + rewrite run_throw, run_bind, run_emit, run_ret, run_ret, logged_logged.
      eexists; repeat split.
    + rewrite !run_ret. eexists; repeat split.
  - rewrite run_bind, run_emit, !run_ret.
    eexists; repeat split.
Qed.

(** The three flags say no more and no less than their checks: a source of
    exactly 2000 code units is within the character limit, one of 2001 is
    over it; ten [&] are within the chaining limit, eleven are over it;
    and the syntax flag is set exactly when the parse call throws.  The
    two limits do not depend on the page or on the parser. *)
Theorem risk_flags_are_exact (source : jsstring) (p : Page) :
  exists p' risk,
    run (getPotentialPerformanceRisk source) p = (p', Returned risk)
    /\ (yes (charLimitOver risk) = true <-> 2000 < List.length source)
    /\ (yes (chainingOfLinksOver risk) = true
        <-> 10 < count_occ N.eq_dec source ampersand)
    /\ (yes (syntaxError risk) = true <-> parse_call p source <> None).
Proof.
  destruct (getPotentialPerformanceRisk_value source p)
    as (risk & Hrun & Hsyn & Hchar & Hchain & _).
  eexists; exists risk. split; [exact Hrun|].
  rewrite Hchar, Hchain, Hsyn. unfold MAX_CHAR_LIMIT, MAX_CHAINING_OF_LINKS_LIMIT.
  split; [apply Nat.ltb_lt|]. split; [apply Nat.ltb_lt|].
  destruct (parse_call p source); split; congruence.
Qed.

(** [getPotentialPerformanceRisk] hands every source to [mermaidAPI.parse]
    before it looks at its length: with [mermaid] defined the parse call is
    the first thing on the record, whatever the size of the source, and at
    most one console message follows.  Nothing else happens: the globals,
    the clock and the document are as they were. *)
Theorem parse_comes_before_the_limits (source : jsstring) (p : Page) :
  exists risk events,
    run (getPotentialPerformanceRisk source) p
    = (logged p events, Returned risk)
    /\ hd_error events
       = Some (if mermaid_defined (globals p) then EParse source
               else EConsoleLog syntax_message (ReferenceError "mermaid"))
    /\ List.length events <= 2
    /\ List.length (filter is_parse events)
       = (if mermaid_defined (globals p) then 1 else 0)
    /\ filter is_render events = []
    /\ filter is_dom_write events = [].
Proof.
  destruct (getPotentialPerformanceRisk_value source p) as (risk & Hrun & _).
  exists risk, (parse_events p source). split; [exact Hrun|].
  unfold parse_events.
  destruct (mermaid_defined (globals p)); [|cbn; repeat split; lia].
  destruct (mermaidAPI_parse source); cbn; repeat split; lia.
Qed.

(** The error list names exactly the checks that failed: the markup built
    from a risk set of [getPotentialPerformanceRisk] contains the message
    of a check if and only if that check's flag is set. *)
Theorem error_list_names_failed_checks (source : jsstring) (p : Page) :
  exists p' risk,
    run (getPotentialPerformanceRisk source) p = (p', Returned risk)
    /\ includes (error_markup risk) (message (syntaxError risk))
       = yes (syntaxError risk)
    /\ includes (error_markup risk) (message (charLimitOver risk))
       = yes (charLimitOver risk)
    /\ includes (error_markup risk) (message (chainingOfLinksOver risk))
       = yes (chainingOfLinksOver risk).
Proof.
  destruct (getPotentialPerformanceRisk_value source p)
    as (risk & Hrun & _ & _ & _ & Hm1 & Hm2 & Hm3).
  eexists; exists risk. split; [exact Hrun|].
  destruct risk as [[y1 m1] [y2 m2] [y3 m3]].
  cbn [syntaxError charLimitOver chainingOfLinksOver yes message] in *.
  subst m1 m2 m3.
  destruct y1, y2, y3; vm_compute; repeat split.
Qed.

End RiskFacts.

(* ================================================================= *)
(** * More about loading and rendering *)

Section LoadFacts.

Context `{Host}.

Lemma initMermaid_called (p : Page) :
  mermaid_defined (globals p) = false ->
  exists k,
    initMermaid p
    = (set_globals (logged p [ELoadScript mermaid_src "mermaid-js"])
         (fst (loadScript mermaid_src "mermaid-js" (globals p))),
       Pending k).
Proof.
  intros Hdef.
  unfold initMermaid, typeof_mermaid_undefined, bind, get, ret, await, emit,
    modify, on_globals, zoom.
  cbn [chain]. rewrite Hdef. cbn [negb chain globals logged set_trace].
  destruct (loadScript mermaid_src "mermaid-js" (globals p)) as [g1 pr].
  cbn [chain fst]. eexists. reflexivity.
Qed.

Lemma initMermaid_skipped (p : Page) :
  mermaid_defined (globals p) = true ->
  initMermaid p = (p, Settled (Returned tt)).
Proof.
  intros Hdef. unfold initMermaid, typeof_mermaid_undefined, bind, get, ret.
  cbn. now rewrite Hdef.
Qed.

(** A call of [initMermaid] that finds no [mermaid] asks for the script and
    is suspended: when it hands control back, the request is all there is
    on the record, and nothing has been initialized.  A second call made
    before the script has defined [mermaid] asks for it again. *)
Theorem initMermaid_requests_the_script_and_waits (p : Page) :
  mermaid_defined (globals p) = false ->
  exists p' k,
    initMermaid p = (p', Pending k)
    /\ trace p' = trace p ++ [ELoadScript mermaid_src "mermaid-js"]
    /\ now p' = now p
    /\ next_node p' = next_node p
    /\ (mermaid_defined (globals p') = false ->
        trace (fst (initMermaid p'))
        = trace p ++ [ELoadScript mermaid_src "mermaid-js";
                      ELoadScript mermaid_src "mermaid-js"]).
Proof.
  intros Hdef. destruct (initMermaid_called p Hdef) as [k Hcall].
  eexists; exists k. split; [exact Hcall|].
  cbn [trace now next_node set_globals logged set_trace].
  repeat split. intros Hstill.
  destruct (initMermaid_called _ Hstill) as [k' ->].
  cbn [fst trace set_globals logged set_trace]. now rewrite <- app_assoc.
Qed.

(** When the script does not load, or loads without defining [mermaid],
    [render] is rejected and the widget stays as it was, source visible:
    the request for the script is the only thing on the record, nothing is
    initialized, parsed or drawn. *)
Theorem render_without_the_library (w : World) (g1 : Globals) :
  mermaid_defined (globals (page w)) = false ->
  (forall e,
     run (loadScript mermaid_src "mermaid-js") (globals (page w))
     = (g1, Thrown e) ->
     run render w
     = (set_page w
          (set_globals
             (logged (page w) [ELoadScript mermaid_src "mermaid-js"]) g1),
        Thrown e))
  /\ (run (loadScript mermaid_src "mermaid-js") (globals (page w))
      = (g1, Returned tt) ->
      mermaid_defined g1 = false ->
      run render w
      = (set_page w
           (set_globals
              (logged (page w) [ELoadScript mermaid_src "mermaid-js"]) g1),
         Thrown (ReferenceError "mermaid"))).
Proof.
  intros Hdef. split.
  - intros e Hload. rewrite run_render, run_initMermaid, Hdef. cbv zeta.
    now rewrite Hload.
  - intros Hload Hg1. rewrite run_render, run_initMermaid, Hdef. cbv zeta.
    now rewrite Hload, Hg1.
Qed.

Lemma set_globals_same (q : Page) : set_globals q (globals q) = q.
Proof. now destruct q. Qed.

(** A call of [initMermaid] that was suspended does not look again when it
    is resumed: if the script has loaded and [mermaid] is defined by then,
    it initializes [mermaid] and [mermaidAPI], whatever has happened on the
    page in the meantime, an initialization by another call included. *)
Theorem resumed_call_initializes_without_looking (p q : Page) (g1 : Globals) :
  mermaid_defined (globals p) = false ->
  settle (snd (loadScript mermaid_src "mermaid-js" (globals p))) (globals q)
  = (g1, Returned tt) ->
  mermaid_defined g1 = true ->
  settle (snd (initMermaid p)) q
  = (logged (set_globals q g1) [EInitialize false; EApiInitialize api_config],
     Returned tt).
Proof.
  intros Hdef Hload Hg1.
  unfold initMermaid, typeof_mermaid_undefined, bind, get, ret, await, emit,
    modify, on_globals, zoom.
  cbn [chain]. rewrite Hdef. cbn [negb chain globals logged set_trace].
  destruct (loadScript mermaid_src "mermaid-js" (globals p)) as [g0 pr].
  cbn [chain fst snd settle] in *.
  rewrite settle_chain.
  rewrite <- (set_globals_same q) at 1.
  rewrite (settle_zoom globals set_globals) by reflexivity.
  rewrite Hload.
  change (run (with_mermaid (emit (EInitialize false)) ;;
               with_mermaid (emit (EApiInitialize api_config)))
              (set_globals q g1)
          = (logged (set_globals q g1)
               [EInitialize false; EApiInitialize api_config], Returned tt)).
  rewrite run_bind, !run_with_mermaid. cbn [globals set_globals].
  rewrite Hg1, run_emit, run_with_mermaid.
  cbn [globals logged set_trace set_globals]. rewrite Hg1, run_emit.
  now rewrite logged_logged.
Qed.

End LoadFacts.

Section RenderFacts.

Context `{Host}.

(** [render] does nothing to the widget before it is suspended: whoever
    calls it gets a pending promise back, with [this] as it was; the page
    is as it was too when [mermaid] is defined, and has the request for
    the script on its record when it is not. *)
Theorem render_waits_before_it_touches_the_widget (w : World) :
  exists w1 k,
    render w = (w1, Pending k)
    /\ self w1 = self w
    /\ if mermaid_defined (globals (page w)) then w1 = w
       else trace (page w1)
            = trace (page w) ++ [ELoadScript mermaid_src "mermaid-js"].
Proof.
  unfold render, bind, await, on_page, zoom.
  destruct (mermaid_defined (globals (page w))) eqn:Hdef.
  - rewrite (initMermaid_skipped _ Hdef). cbn [chain].
    eexists; eexists. split; [reflexivity|]. split; [reflexivity|].
    now destruct w.
  - destruct (initMermaid_called _ Hdef) as [k ->]. cbn [chain].
    eexists; eexists. split; [reflexivity|]. now split.
Qed.

Lemma run_render_body_no_element (w : World) :
  falsy (content_of (self w)) = false ->
  (forall i tag st cs,
     hd_error (childNodes (self w)) <> Some (i, Element tag st cs)) ->
  exists msg, run render_body w = (w, Thrown (TypeError msg)).
Proof.
  intros Hfull Hnone.
  destruct (childNodes (self w)) as [|[i [tag st cs|data]] rest] eqn:Hkids;
    [|exfalso; now apply (Hnone i tag st cs)|];
    eexists; unfold render_body; rewrite run_bind, run_get, Hfull;
    rewrite run_bind; unfold hide_sourceContainer at 1;
    rewrite run_bind, run_get, Hkids; reflexivity.
Qed.

(** A widget whose first child is not an element, its text lying directly
    in it or no child at all, makes [render] throw a [TypeError] at
    [setAttribute]: the widget is left as it was, and the source is neither
    parsed nor drawn nor replaced by the error list. *)
Theorem render_without_a_source_element (w : World) (p1 : Page) :
  run initMermaid (page w) = (p1, Returned tt) ->
  content_of (self w) <> [] ->
  (forall i tag st cs,
     hd_error (childNodes (self w)) <> Some (i, Element tag st cs)) ->
  exists msg, run render w = (set_page w p1, Thrown (TypeError msg)).
Proof.
  intros Hinit Hfull Hnone. rewrite run_render, Hinit.
  apply run_render_body_no_element; cbn [self set_page];
    [now apply falsy_false | exact Hnone].
Qed.

(** What [render_body] may put on the record and what it leaves alone. *)
Lemma render_body_frame (w : World) :
  exists w' o events,
    run render_body w = (w', o)
    /\ trace (page w') = trace (page w) ++ events
    /\ filter is_init events = []
    /\ globals (page w') = globals (page w)
    /\ now (page w') = now (page w).
Proof.
  destruct (falsy (content_of (self w))) eqn:Hfull.
  { exists w, (Returned tt), []. rewrite app_nil_r.
    now rewrite run_render_body_empty. }
  pose proof (run_render_body_untyped w Hfull) as Huntyped.
  destruct (childNodes (self w)) as [|[i [tag st cs|data]] rest] eqn:Hkids;
    [destruct Huntyped as [e ->]; exists w, (Thrown e), [];
     rewrite app_nil_r; now repeat split
    |
    |destruct Huntyped as [e ->]; exists w, (Thrown e), [];
     rewrite app_nil_r; now repeat split].
  destruct (run_render_body w i tag st cs rest Hkids Hfull)
    as (risk & _ & _ & _ & _ & w' & o & Hrun & Hglobals & Hnow & _ & _ & Hcases).
  assert (Hquiet : filter is_init (parse_events (page w) (content_of (self w)))
                   = []).
  { unfold parse_events. destruct (mermaid_defined (globals (page w)));
      [destruct (mermaidAPI_parse (content_of (self w)))|]; reflexivity. }
  exists w', o.
  destruct (includes_true (map yes (Object_values risk))).
  - destruct Hcases as (_ & Htrace & _).
    eexists. split; [exact Hrun|]. split; [exact Htrace|].
    split; [|now split].
    cbn [app filter is_init]. now rewrite filter_app, Hquiet.
  - cbv zeta in Hcases.
    destruct (mermaidAPI_render (render_id (now (page w))) (content_of (self w)))
      as [svgCode|e]; destruct Hcases as (_ & Htrace & _);
      (eexists; split; [exact Hrun|]; split; [exact Htrace|];
       split; [|now split];
       cbn [app filter is_init]; now rewrite filter_app, Hquiet).
Qed.

(** A render that has completed leaves [mermaid] defined, and from then on
    no render on that page, of this widget or of another, asks for the
    script or initializes the library again. *)
Theorem completed_render_keeps_the_library (w w' : World) :
  run render w = (w', Returned tt) ->
  mermaid_defined (globals (page w')) = true
  /\ forall e : EmbedMermaid,
       exists w2 o events,
         run render {| page := page w'; self := e |} = (w2, o)
         /\ trace (page w2) = trace (page w') ++ events
         /\ filter is_init events = []
         /\ mermaid_defined (globals (page w2)) = true.
Proof.
  intros Hdone.
  assert (Hdef : mermaid_defined (globals (page w')) = true).
  { rewrite run_render in Hdone.
    destruct (run initMermaid (page w)) as [p1 o1] eqn:Hinit.
    destruct (initMermaid_frame (page w) p1 o1 Hinit)
      as (_ & _ & _ & _ & _ & Hdef).
    destruct o1 as [[]|e]; [|discriminate].
    destruct (render_body_frame (set_page w p1))
      as (w1 & o & events & Hrun & _ & _ & Hglobals & _).
    rewrite Hrun in Hdone. injection Hdone as <- _.
    rewrite Hglobals. cbn [page set_page]. now apply Hdef. }
  split; [exact Hdef|]. intros e.
  rewrite run_render, run_initMermaid. cbn [page]. rewrite Hdef.
  destruct (render_body_frame (set_page {| page := page w'; self := e |} (page w')))
    as (w2 & o & events & Hrun & Htrace & Hquiet & Hglobals & _).
  exists w2, o, events. split; [exact Hrun|].
  cbn [page set_page] in *. repeat split; [exact Htrace | exact Hquiet|].
  now rewrite Hglobals.
Qed.

Lemma no_risk_flag (p1 : Page) (content : jsstring) (risk : PotentialRisk) :
  mermaid_defined (globals p1) = true ->
  mermaidAPI_parse content = None ->
  List.length content <= 2000 ->
  count_occ N.eq_dec content ampersand <= 10 ->
  yes (syntaxError risk)
  = (match parse_call p1 content with Some _ => true | None => false end) ->
  yes (charLimitOver risk) = (MAX_CHAR_LIMIT <? List.length content)%nat ->
  yes (chainingOfLinksOver risk)
  = (MAX_CHAINING_OF_LINKS_LIMIT
       <? List.length (or_empty (match_amp content)))%nat ->
  includes_true (map yes (Object_values risk)) = false.
Proof.
  intros Hdef Hparse Hshort Hfew Hsyn Hchar Hchain.
  rewrite includes_true_flags, Hsyn, Hchar, Hchain, match_amp_length.
  unfold parse_call. rewrite Hdef, Hparse.
  unfold MAX_CHAR_LIMIT, MAX_CHAINING_OF_LINKS_LIMIT.
  destruct (Nat.ltb_spec 2000 (List.length content)); [lia|].
  destruct (Nat.ltb_spec 10 (count_occ N.eq_dec content ampersand)); [lia|].
  reflexivity.
Qed.

(** When [mermaidAPI.render] throws on a source that passed all three
    checks, [render] is rejected with that exception, nothing catching it:
    the source element stays hidden, no container is appended and no error
    list is written, so the widget shows nothing. *)
Theorem render_when_the_library_throws
  (w : World) (p1 : Page) i tag st cs rest (e : Exn) :
  run initMermaid (page w) = (p1, Returned tt) ->
  childNodes (self w) = (i, Element tag st cs) :: rest ->
  content_of (self w) <> [] ->
  mermaidAPI_parse (content_of (self w)) = None ->
  List.length (content_of (self w)) <= 2000 ->
  count_occ N.eq_dec (content_of (self w)) ampersand <= 10 ->
  mermaidAPI_render (render_id (now (page w))) (content_of (self w)) = Thrown e ->
  exists w',
    run render w = (w', Thrown e)
    /\ childNodes (self w') = concealed i tag cs :: rest
    /\ trace (page w')
       = trace p1 ++ [ESetAttribute "style" "display:none";
                      EParse (content_of (self w));
                      ERender (render_id (now (page w))) (content_of (self w))].
Proof.
  intros Hinit Hkids Hfull Hparse Hshort Hfew Hthrows.
  destruct (initMermaid_frame (page w) p1 (Returned tt) Hinit)
    as (_ & _ & _ & Hnow & _ & Hdef).
  rewrite run_render, Hinit.
  destruct (run_render_body (set_page w p1) i tag st cs rest Hkids
              (falsy_false _ Hfull))
    as (risk & _ & Hsyn & Hchar & Hchain & w' & o & Hrun & _ & _ & _ & _ & Hcases).
  cbn [self page set_page] in *.
  rewrite (no_risk_flag p1 _ risk (Hdef eq_refl) Hparse Hshort Hfew
             Hsyn Hchar Hchain), Hnow, Hthrows in Hcases.
  destruct Hcases as (-> & Htrace & Hchildren & _).
  exists w'. split; [exact Hrun|]. split; [exact Hchildren|].
  rewrite Htrace. unfold parse_events. now rewrite (Hdef eq_refl), Hparse.
Qed.

(** When [mermaidAPI.render] answers, the SVG goes into one new [div], the
    last child of the widget; the children that were there keep their
    place, the source element hidden among them, and the text of the
    widget is now its old text followed by the text of the SVG. *)
Theorem render_inserts_the_svg
  (w : World) (p1 : Page) i tag st cs rest (svgCode : string) :
  run initMermaid (page w) = (p1, Returned tt) ->
  childNodes (self w) = (i, Element tag st cs) :: rest ->
  content_of (self w) <> [] ->
  mermaidAPI_parse (content_of (self w)) = None ->
  List.length (content_of (self w)) <= 2000 ->
  count_occ N.eq_dec (content_of (self w)) ampersand <= 10 ->
  mermaidAPI_render (render_id (now (page w))) (content_of (self w))
  = Returned svgCode ->
  well_formed w ->
  exists w',
    run render w = (w', Returned tt)
    /\ childNodes (self w')
       = concealed i tag cs :: rest
         ++ [(next_node (page w), Element "div" None (parse_html svgCode))]
    /\ text_of (self w')
       = text_of (self w) ++ flat_map textContent (parse_html svgCode)
    /\ trace (page w')
       = trace p1 ++ [ESetAttribute "style" "display:none";
                      EParse (content_of (self w));
                      ERender (render_id (now (page w))) (content_of (self w));
                      EAppendChild "div";
                      EChildInnerHTML svgCode].
Proof.
  intros Hinit Hkids Hfull Hparse Hshort Hfew Hanswers [Hold _].
  destruct (initMermaid_frame (page w) p1 (Returned tt) Hinit)
    as (_ & _ & _ & Hnow & Hnext & Hdef).
  rewrite run_render, Hinit.
  destruct (run_render_body (set_page w p1) i tag st cs rest Hkids
              (falsy_false _ Hfull))
    as (risk & _ & Hsyn & Hchar & Hchain & w' & o & Hrun & _ & _ & _ & _ & Hcases).
  cbn [self page set_page] in *.
  rewrite (no_risk_flag p1 _ risk (Hdef eq_refl) Hparse Hshort Hfew
             Hsyn Hchar Hchain), Hnow, Hanswers in Hcases.
  destruct Hcases as (-> & Htrace & Hchildren & _).
  assert (Hkept : childNodes (self w')
                  = concealed i tag cs :: rest
                    ++ [(next_node (page w),
                         Element "div" None (parse_html svgCode))]).
  { rewrite Hchildren, Hnext, app_comm_cons, map_app, map_filled_older.
    - cbn [map]. unfold filled. cbn [fst snd with_children].
      now rewrite Nat.eqb_refl.
    - intros j Hj. apply Hold. unfold identities. rewrite Hkids. exact Hj. }
  exists w'. split; [exact Hrun|]. split; [exact Hkept|]. split.
  - unfold text_of. rewrite Hkept, Hkids.
    cbn [map flat_map concealed snd textContent].
    rewrite map_app, flat_map_app. cbn [map flat_map snd textContent].
    now rewrite app_nil_r, app_assoc.
  - rewrite Htrace. unfold parse_events. now rewrite (Hdef eq_refl), Hparse.
Qed.

End RenderFacts.

(* ================================================================= *)
(** * More about attaching, detaching and the observer *)

Section AttachFacts.

Context `{Host}.

(** Attaching the widget appends one empty [div], keeps a reference to it
    in [_tmpContainer] and has a new observer watch it, 1000px ahead.  The
    text of the widget, which [render] will read as the source, is what it
    was; the library is not asked for and nothing is drawn yet. *)
Theorem attachment_keeps_the_source_text (w : World) :
  exists w',
    run connectedCallback w = (w', Returned tt)
    /\ text_of (self w') = text_of (self w)
    /\ childNodes (self w')
       = childNodes (self w) ++ [(next_node (page w), Element "div" None [])]
    /\ _tmpContainer (self w') = Some (next_node (page w))
    /\ observer (self w')
       = Some {| rootMargin := "1000px 0px"; observing := true |}
    /\ page w'
       = set_next_node (logged (page w) [EAppendChild "div"])
                       (S (next_node (page w))).
Proof.
  eexists. split; [reflexivity|].
  cbn [self page set_self set_page childNodes _tmpContainer observer
       set_childNodes set_tmpContainer set_observer set_observing fst snd].
  repeat split.
  unfold text_of.
  cbn [childNodes set_observing set_observer set_tmpContainer set_childNodes
       observer _tmpContainer].
  rewrite map_app, flat_map_app. cbn. now rewrite app_nil_r.
Qed.

(** Detaching removes no child, and every attachment appends a container
    of its own: a widget attached, detached and attached again has two
    more [div] children than it had, [_tmpContainer] refers to the newer
    one, and its observer is watching again. *)
Theorem reattachment_adds_a_container (w : World) :
  exists w',
    run (connectedCallback ;; disconnectedCallback ;; connectedCallback) w
    = (w', Returned tt)
    /\ childNodes (self w')
       = childNodes (self w)
         ++ [(next_node (page w), Element "div" None []);
             (S (next_node (page w)), Element "div" None [])]
    /\ _tmpContainer (self w') = Some (S (next_node (page w)))
    /\ is_observing w' = true
    /\ trace (page w')
       = trace (page w) ++ [EAppendChild "div"; EAppendChild "div"].
Proof.
  eexists. split; [reflexivity|].
  cbn [self page set_self set_page childNodes _tmpContainer observer
       set_childNodes set_tmpContainer set_observer set_observing fst snd
       is_observing observing trace logged set_trace set_next_node next_node].
  rewrite <- !app_assoc. repeat split.
Qed.

(** Detaching touches nothing but the observer: the page, the children
    and [_tmpContainer] are as they were, the container is no longer
    observed, and detaching a second time, or a widget that was never
    attached, changes nothing more. *)
Theorem detaching_only_stops_the_observer (w : World) :
  exists w',
    run disconnectedCallback w = (w', Returned tt)
    /\ page w' = page w
    /\ childNodes (self w') = childNodes (self w)
    /\ _tmpContainer (self w') = _tmpContainer (self w)
    /\ is_observing w' = false
    /\ run disconnectedCallback w' = (w', Returned tt).
Proof.
  unfold disconnectedCallback. rewrite run_bind, run_get.
  destruct w as [p [kids tmp [[margin watching]|]]];
    cbn [self observer _tmpContainer].
  - destruct tmp as [t|]; eexists; (split; [reflexivity|]);
      repeat split.
  - eexists. split; [reflexivity|]. repeat split.
Qed.

Lemma intersection_callback_hidden (entries : list IntersectionObserverEntry) :
  forall w,
    existsb isIntersecting entries = false ->
    intersection_callback entries w = (w, []).
Proof.
  induction entries as [|entry rest IH]; intros w Hnone;
    cbn [intersection_callback]; [reflexivity|].
  cbn [existsb] in Hnone. apply orb_false_elim in Hnone as [Hentry Hrest].
  now rewrite (on_entry_hidden entry w Hentry), (IH w Hrest).
Qed.

(** Callbacks in which no entry is intersecting change nothing: [render]
    is not called, the page and the widget are as they were, and the
    container is still observed if it was. *)
Theorem hidden_entries_change_nothing
  (batches : list (list IntersectionObserverEntry)) (w : World) :
  all_hidden batches = true -> notifications batches w = (w, 0).
Proof.
  unfold all_hidden. revert w.
  induction batches as [|entries rest IH]; intros w Hall;
    cbn [notifications]; [reflexivity|].
  cbn [forallb] in Hall. apply andb_prop in Hall as [Hentries Hrest].
  apply negb_true_iff in Hentries.
  unfold notify. rewrite (intersection_callback_hidden entries w Hentries).
  cbn [drain List.length].
  destruct (is_observing w); now rewrite (IH w Hrest).
Qed.

Lemma run_stable {S T A} (proj : S -> T) (m : Async S A) (s : S) :
  stable proj m -> proj (fst (run m s)) = proj s.
Proof.
  intros Hm. unfold run. destruct (Hm s) as [Hfst Hkeeps].
  destruct (m s) as [s1 pr]. cbn [fst snd] in *.
  now rewrite (settle_keeps proj pr Hkeeps s1).
Qed.

(** [render] itself never stops the observer: on an attached widget that
    was rendered by a direct call, the container is still observed and
    [_tmpContainer] still refers to it, so the first callback with an
    intersecting entry calls [render] again, once for each such entry. *)
Theorem direct_render_does_not_stop_the_observer
  (w : World) (batches : list (list IntersectionObserverEntry)) :
  let rendered := fst (run render (fst (run connectedCallback w))) in
  is_observing rendered = true
  /\ _tmpContainer (self rendered) = Some (next_node (page w))
  /\ snd (notifications batches rendered) = intersecting (first_visible batches).
Proof.
  intros rendered.
  destruct (run_connectedCallback w) as (w' & Hrun & Hobs & Htmp & _).
  assert (Hkept : observation rendered = observation w').
  { unfold rendered. rewrite Hrun. cbn [fst].
    apply run_stable, stable_render. }
  assert (Hobs' : is_observing rendered = true)
    by now rewrite (is_observing_observation w' rendered Hkept).
  assert (Htmp' : _tmpContainer (self rendered) = Some (next_node (page w))).
  { unfold observation in Hkept. injection Hkept as -> _. exact Htmp. }
  split; [exact Hobs'|]. split; [exact Htmp'|].
  now destruct (notifications_observing batches rendered _ Hobs' Htmp').
Qed.

End AttachFacts.

(* ================================================================= *)
(** * The further statements at work *)

Section MoreExamples.

Import Sample Hosts.

Lemma risk_flags_are_exact_witness :
  exists p' risk,
    run (@getPotentialPerformanceRisk host full_source) loaded_page
    = (p', Returned risk)
    /\ yes (charLimitOver risk) = false
    /\ yes (chainingOfLinksOver risk) = false
    /\ yes (syntaxError risk) = false.
Proof.
  destruct (@risk_flags_are_exact host full_source loaded_page)
    as (p' & risk & Hrun & Hchar & Hchain & Hsyn).
  exists p', risk. split; [exact Hrun|].
  split; [|split].
  - destruct (yes (charLimitOver risk)); [|reflexivity].
    apply proj1 in Hchar. specialize (Hchar eq_refl).
    vm_compute in Hchar. lia.
  - destruct (yes (chainingOfLinksOver risk)); [|reflexivity].
    apply proj1 in Hchain. specialize (Hchain eq_refl).
    vm_compute in Hchain. lia.
  - destruct (yes (syntaxError risk)); [|reflexivity].
    apply proj1 in Hsyn. specialize (Hsyn eq_refl).
    exfalso. apply Hsyn. reflexivity.
Defined.

Lemma initMermaid_requests_the_script_and_waits_witness :
  mermaid_defined (globals fresh_page) = false
  /\ exists p' k,
       @initMermaid host fresh_page = (p', Pending k)
       /\ trace (fst (@initMermaid host p'))
          = [ELoadScript mermaid_src "mermaid-js";
             ELoadScript mermaid_src "mermaid-js"].
Proof.
  split; [reflexivity|].
  destruct (@initMermaid_requests_the_script_and_waits host fresh_page eq_refl)
    as (p' & k & Hcall & Htrace & _ & _ & Hagain).
  exists p', k. split; [exact Hcall|].
  apply Hagain.
  assert (Hp' : p' = fst (@initMermaid host fresh_page)) by now rewrite Hcall.
  rewrite Hp'. reflexivity.
Defined.

Lemma resumed_call_initializes_without_looking_witness :
  mermaid_defined (globals fresh_page) = false
  /\ trace (fst (settle (snd (@initMermaid host fresh_page))
                        (fst (run (@initMermaid host) fresh_page))))
     = [ELoadScript mermaid_src "mermaid-js";
        EInitialize false; EApiInitialize api_config;
        EInitialize false; EApiInitialize api_config].
Proof.
  split; [reflexivity|].
  rewrite (@resumed_call_initializes_without_looking host fresh_page
             (fst (run (@initMermaid host) fresh_page))
             {| mermaid_defined := true |} eq_refl eq_refl eq_refl).
  reflexivity.
Defined.

Lemma render_without_the_library_witness :
  mermaid_defined (globals fresh_page) = false
  /\ run (@render offline) {| page := fresh_page; self := widget 0 flowchart |}
     = ({| page := logged fresh_page [ELoadScript mermaid_src "mermaid-js"];
           self := widget 0 flowchart |},
        Thrown (Failure "load error"))
  /\ run (@render stale) {| page := fresh_page; self := widget 0 flowchart |}
     = ({| page := logged fresh_page [ELoadScript mermaid_src "mermaid-js"];
           self := widget 0 flowchart |},
        Thrown (ReferenceError "mermaid")).
Proof.
  split; [reflexivity|]. split.
  - apply (proj1 (@render_without_the_library offline
                    {| page := fresh_page; self := widget 0 flowchart |}
                    {| mermaid_defined := false |} eq_refl)).
    reflexivity.
  - apply (proj2 (@render_without_the_library stale
                    {| page := fresh_page; self := widget 0 flowchart |}
                    {| mermaid_defined := false |} eq_refl));
      reflexivity.
Defined.

Lemma render_without_a_source_element_witness :
  exists msg,
    run (@render host) {| page := loaded_page; self := bare flowchart |}
    = ({| page := loaded_page; self := bare flowchart |}, Thrown (TypeError msg)).
Proof.
  apply (@render_without_a_source_element host
           {| page := loaded_page; self := bare flowchart |} loaded_page).
  - reflexivity.
  - discriminate.
  - intros i tag st cs. discriminate.
Defined.

Lemma completed_render_keeps_the_library_witness :
  run (@render host) empty = (fst (run (@render host) empty), Returned tt)
  /\ exists w2 o events,
       run (@render host)
           {| page := page (fst (run (@render host) empty));
              self := widget 1 flowchart |} = (w2, o)
       /\ filter is_init events = []
       /\ trace (page w2)
          = trace (page (fst (run (@render host) empty))) ++ events.
Proof.
  assert (Hdone : run (@render host) empty
                  = (fst (run (@render host) empty), Returned tt))
    by reflexivity.
  split; [exact Hdone|].
  destruct (proj2 (@completed_render_keeps_the_library host empty _ Hdone)
              (widget 1 flowchart))
    as (w2 & o & events & Hrun & Htrace & Hquiet & _).
  exists w2, o, events. split; [exact Hrun|]. split; [exact Hquiet | exact Htrace].
Defined.

Lemma render_when_the_library_throws_witness :
  exists w',
    run (@render brittle) one = (w', Thrown (Failure "render error"))
    /\ childNodes (self w')
       = [(0, Element "pre" (Some "display:none") [Text flowchart])].
Proof.
  destruct (@render_when_the_library_throws brittle one loaded_page
              0 "pre" None [Text flowchart] [] (Failure "render error")
              eq_refl eq_refl ltac:(discriminate) eq_refl
              ltac:(vm_compute; lia) ltac:(vm_compute; lia) eq_refl)
    as (w' & Hrun & Hchildren & _).
  exists w'. split; [exact Hrun | exact Hchildren].
Defined.

Lemma render_inserts_the_svg_witness :
  well_formed one
  /\ exists w',
       run (@render host) one = (w', Returned tt)
       /\ childNodes (self w')
          = [(0, Element "pre" (Some "display:none") [Text flowchart]);
             (2, Element "div" None [Text (lit "<svg></svg>")])].
Proof.
  assert (Hwf : well_formed one).
  { split.
    - intros i [<-|[]]. vm_compute. lia.
    - intros t [=]. }
  split; [exact Hwf|].
  destruct (@render_inserts_the_svg host one loaded_page
              0 "pre" None [Text flowchart] [] "<svg></svg>"
              eq_refl eq_refl ltac:(discriminate) eq_refl
              ltac:(vm_compute; lia) ltac:(vm_compute; lia) eq_refl Hwf)
    as (w' & Hrun & Hchildren & _).
  exists w'. split; [exact Hrun | exact Hchildren].
Defined.

Lemma hidden_entries_change_nothing_witness :
  all_hidden [[hidden]; []; [hidden; hidden]] = true
  /\ @notifications host [[hidden]; []; [hidden; hidden]] attached
     = (attached, 0).
Proof.
  split; [reflexivity|].
  apply (@hidden_entries_change_nothing host). reflexivity.
Defined.

End MoreExamples.
